(** * clewcrew-common: the confidence scoring engine

    A shallow embedding of [src/clewcrew_common/confidence.py] and the
    properties its specification states about it.

    Conventions of the embedding.
    - The operations are embedded twice. In the exact model a Python [float]
      is a rational ([Q]), [==] on floats is [Qeq] and no operation rounds;
      it carries the statements about the expressions the source computes.
      In [Binary64] a float is a binary64 number and every operation rounds
      as the code's does; it carries the statements that turn on the
      rounding: which values the constructor refuses, which factor a
      comparison selects, whether a bound holds to the last place.
      The decimal literals of the source ([0.9], [1.2], ...) are the same
      decimal literals in both.
    - A Python [int] is a [Z]; true division [a / b] of two ints is the
      quotient of their injections into [Q], and in [Binary64] that quotient
      rounded once.
    - A raised exception is the [Raise] branch of [result]; a float division
      raises [ZeroDivisionError] on a zero divisor, so it is [Py.div] and the
      code around it is written with [bind]. [ValidationError] is pydantic's,
      a subclass of Python's [ValueError]: [is_value_error] holds of both.
    - [List[str]] is [list string]; [Dict[str, Any]] is an association list in
      insertion order. *)

From Stdlib Require Import QArith Qminmax ZArith Bool String List Lia Lqa.
Import ListNotations.
Open Scope string_scope.
Open Scope list_scope.
Open Scope Q_scope.

(** ** Exceptions and results *)

Inductive exn : Type :=
| ValidationError (field : string)   (* pydantic: a field constraint failed *)
| ValueError (msg : string)
| ZeroDivisionError
| OverflowError.

Inductive result (A : Type) : Type :=
| Ok (a : A)
| Raise (e : exn).

Arguments Ok {A} a.
Arguments Raise {A} e.

Definition bind {A B : Type} (r : result A) (k : A -> result B) : result B :=
  match r with
  | Ok a => k a
  | Raise e => Raise e
  end.

Notation "x <- c ;; k" := (bind c (fun x => k))
  (at level 61, c at next level, right associativity).

(** A comprehension [[f(x) for x in xs]] whose body may raise. *)
Fixpoint mapM {A B : Type} (f : A -> result B) (xs : list A)
  : result (list B) :=
  match xs with
  | [] => Ok []
  | x :: rest => y <- f x ;; ys <- mapM f rest ;; Ok (y :: ys)
  end.

(** ** Python built-ins used by the module *)

Module Py.

(** [a < b] on floats. *)
Definition lt (a b : Q) : bool := negb (Qle_bool b a).

(** [a != b] on floats. *)
Definition ne (a b : Q) : bool := negb (Qeq_bool a b).

(** [min(a, b)]: the first argument stays unless the second is strictly
    smaller. *)
Definition min (a b : Q) : Q := if lt b a then b else a.

(** [max(a, b)]: the first argument stays unless the second is strictly
    larger. *)
Definition max (a b : Q) : Q := if lt a b then b else a.

(** [sum(xs)]: starts from [0] and adds from the left. *)
Definition sum (xs : list Q) : Q := fold_left Qplus xs 0.

(** [a / b] on floats. *)
Definition div (a b : Q) : result Q :=
  if Qeq_bool b 0 then Raise ZeroDivisionError else Ok (a / b).

(** [len(xs)] as a number. *)
Definition len {A : Type} (xs : list A) : Z := Z.of_nat (List.length xs).

(** [float(n)] of an int. *)
Definition of_int (n : Z) : Q := inject_Z n.

(** [[x] * n] *)
Definition replicate {A : Type} (x : A) (n : Z) : list A :=
  List.repeat x (Z.to_nat n).

(** [zip(xs, ys)] stops at the shorter list. *)
Definition zip {A B : Type} (xs : list A) (ys : list B) : list (A * B) :=
  List.combine xs ys.

End Py.

(** ** The data model *)

(** The values a metadata entry holds in this module. *)
Inductive meta_value : Type :=
| MStr (s : string)
| MInt (n : Z)
| MFloat (q : Q)
| MFloats (qs : list Q).

Definition Metadata : Type := list (string * meta_value).

Fixpoint meta_get (k : string) (md : Metadata) : option meta_value :=
  match md with
  | [] => None
  | (k', v) :: rest => if String.eqb k k' then Some v else meta_get k rest
  end.

Record ConfidenceScore : Type := mkConfidenceScore {
  value : Q;
  factors : list string;
  metadata : Metadata
}.

(** [validate_confidence], the [field_validator] of [value]. *)
Definition validate_confidence (v : Q) : Q := Py.max 0 (Py.min 1 v).

(** The declared constraints of the field: [Field(..., ge=0.0, le=1.0)]. *)
Definition value_field_ok (v : Q) : bool := Qle_bool 0 v && Qle_bool v 1.

(** [ConfidenceScore(value=v, factors=fs, metadata=md)].

    The field is declared [Field(..., ge=0.0, le=1.0)] and its validator is
    registered with [@field_validator("value")], whose mode is "after" when
    none is given: pydantic first checks the field against its declared
    constraints and raises [ValidationError] when one fails, and only a value
    that passed them reaches [validate_confidence]. *)
Definition ConfidenceScore_new (v : Q) (fs : list string) (md : Metadata)
  : result ConfidenceScore :=
  if value_field_ok v
  then Ok (mkConfidenceScore (validate_confidence v) fs md)
  else Raise (ValidationError "value").

(** A finding: the two keys [calculate_agent_confidence] reads from the dict,
    each possibly absent. *)
Record Delusion : Type := mkDelusion {
  d_confidence : option Q;
  d_severity : option string
}.

(** [d.get(key, default)] *)
Definition get {A : Type} (field : option A) (default : A) : A :=
  match field with
  | Some x => x
  | None => default
  end.

(** ** ConfidenceCalculator *)

Module ConfidenceCalculator.

(** The body of the [for delusion in delusions] loop, on the pair
    [(total_confidence, factors)]. *)
Definition agent_loop_body (st : Q * list string) (delusion : Delusion)
  : Q * list string :=
  let '(total_confidence, factors) := st in
  let confidence := get (d_confidence delusion) 0.5 in
  let severity := get (d_severity delusion) "medium" in
  let '(confidence, factors) :=
    if String.eqb severity "high" then
      (confidence * 1.2, factors ++ ["high_severity_penalty"])
    else if String.eqb severity "low" then
      (confidence * 0.8, factors ++ ["low_severity_penalty"])
    else
      (confidence, factors ++ ["medium_severity"]) in
  (total_confidence + confidence, factors).

Definition calculate_agent_confidence
  (delusions : list Delusion) (base_confidence : Q)
  : result ConfidenceScore :=
  match delusions with
  | [] =>
      ConfidenceScore_new base_confidence ["no_delusions_found"]
        [("method", MStr "agent_confidence");
         ("base_confidence", MFloat base_confidence)]
  | _ :: _ =>
      let '(total_confidence, factors) :=
        fold_left agent_loop_body delusions (0.0, []) in
      average <- Py.div total_confidence (Py.of_int (Py.len delusions)) ;;
      let final_confidence := Py.min average 1.0 in
      average_delusion_confidence <-
        Py.div total_confidence (Py.of_int (Py.len delusions)) ;;
      ConfidenceScore_new final_confidence factors
        [("method", MStr "agent_confidence");
         ("delusion_count", MInt (Py.len delusions));
         ("average_delusion_confidence",
          MFloat average_delusion_confidence)]
  end.

Definition calculate_recovery_confidence
  (changes_made : list string) (base_confidence : Q)
  : result ConfidenceScore :=
  match changes_made with
  | [] =>
      ConfidenceScore_new base_confidence ["no_changes_made"]
        [("method", MStr "recovery_confidence");
         ("base_confidence", MFloat base_confidence)]
  | _ :: _ =>
      let confidence_increase :=
        Py.min 0.4 (Py.of_int (Py.len changes_made) * 0.1) in
      let final_confidence :=
        Py.min 0.9 (base_confidence + confidence_increase) in
      ConfidenceScore_new final_confidence
        ["changes_successful"; "multiple_changes"]
        [("method", MStr "recovery_confidence");
         ("changes_count", MInt (Py.len changes_made));
         ("confidence_increase", MFloat confidence_increase)]
  end.

Definition calculate_validation_confidence
  (issues : list string) (base_confidence : Q)
  : result ConfidenceScore :=
  match issues with
  | [] =>
      ConfidenceScore_new base_confidence ["no_issues_found"]
        [("method", MStr "validation_confidence");
         ("base_confidence", MFloat base_confidence)]
  | _ :: _ =>
      let confidence_decrease :=
        Py.min 0.8 (Py.of_int (Py.len issues) * 0.1) in
      let final_confidence :=
        Py.max 0.1 (base_confidence - confidence_decrease) in
      ConfidenceScore_new final_confidence
        ["issues_found"; "multiple_issues"]
        [("method", MStr "validation_confidence");
         ("issues_count", MInt (Py.len issues));
         ("confidence_decrease", MFloat confidence_decrease)]
  end.

(** The first [if]/[elif]/[else] of the factor list of a workflow. *)
Definition completion_factor (completion_ratio : Q) : string :=
  if Qeq_bool completion_ratio 1.0 then "workflow_completed"
  else if Py.lt 0.5 completion_ratio then "workflow_partially_completed"
  else "workflow_early_stage".

(** The second [if]/[elif], which may append nothing. *)
Definition step_confidence_factor (avg_step_confidence : Q) : list string :=
  if Py.lt 0.8 avg_step_confidence then ["high_step_confidence"]
  else if Py.lt avg_step_confidence 0.3 then ["low_step_confidence"]
  else [].

(** The [if step_confidence_scores: ... else: ...] block. *)
Definition avg_step_confidence_of (step_confidence_scores : list Q)
  : result Q :=
  match step_confidence_scores with
  | [] => Ok 0.5
  | _ :: _ =>
      Py.div (Py.sum step_confidence_scores)
             (Py.of_int (Py.len step_confidence_scores))
  end.

Definition calculate_workflow_confidence
  (steps_completed total_steps : Z) (step_confidence_scores : list Q)
  : result ConfidenceScore :=
  if (total_steps =? 0)%Z then
    ConfidenceScore_new 0.0 ["no_steps_defined"]
      [("method", MStr "workflow_confidence")]
  else
    completion_ratio <-
      Py.div (Py.of_int steps_completed) (Py.of_int total_steps) ;;
    avg_step_confidence <- avg_step_confidence_of step_confidence_scores ;;
    let final_confidence :=
      (completion_ratio * 0.6) + (avg_step_confidence * 0.4) in
    let factors :=
      [] ++ [completion_factor completion_ratio]
         ++ step_confidence_factor avg_step_confidence in
    ConfidenceScore_new final_confidence factors
      [("method", MStr "workflow_confidence");
       ("completion_ratio", MFloat completion_ratio);
       ("average_step_confidence", MFloat avg_step_confidence);
       ("steps_completed", MInt steps_completed);
       ("total_steps", MInt total_steps)].

Definition normalize_confidence (confidence : Q) : Q :=
  Py.max 0.0 (Py.min 1.0 confidence).

(** The block "Normalize weights to sum to 1.0". *)
Definition normalize_weights (weights : list Q) : result (list Q) :=
  let weight_sum := Py.sum weights in
  if Py.ne weight_sum 0 then mapM (fun w => Py.div w weight_sum) weights
  else Ok weights.

(** [sum(score.value * weight for score, weight in zip(scores, weights))] *)
Definition weighted_sum (scores : list ConfidenceScore) (weights : list Q)
  : Q :=
  Py.sum (map (fun sw => value (fst sw) * snd sw) (Py.zip scores weights)).

(** The loop [for score in scores: all_factors.extend(score.factors)]. *)
Definition all_factors_of (scores : list ConfidenceScore) : list string :=
  fold_left (fun all_factors score => all_factors ++ factors score)
            scores [].

Definition mismatch_message : string :=
  "Number of weights must match number of scores".

(** The block [if weights is None: ...]. *)
Definition default_weights (scores : list ConfidenceScore)
  (weights : option (list Q)) : result (list Q) :=
  match weights with
  | None =>
      w <- Py.div 1.0 (Py.of_int (Py.len scores)) ;;
      Ok (Py.replicate w (Py.len scores))
  | Some ws => Ok ws
  end.

(** [weights = None] is the default of the optional argument. *)
Definition combine_confidence_scores
  (scores : list ConfidenceScore) (weights : option (list Q))
  : result ConfidenceScore :=
  match scores with
  | [] =>
      ConfidenceScore_new 0.0 ["no_scores_provided"]
        [("method", MStr "combined_confidence")]
  | _ :: _ =>
      weights <- default_weights scores weights ;;
      if negb (Py.len weights =? Py.len scores)%Z then
        Raise (ValueError mismatch_message)
      else
        weights <- normalize_weights weights ;;
        let combined_value := weighted_sum scores weights in
        let all_factors := all_factors_of scores in
        ConfidenceScore_new combined_value all_factors
          [("method", MStr "combined_confidence");
           ("score_count", MInt (Py.len scores));
           ("weights", MFloats weights);
           ("individual_scores", MFloats (map value scores))]
  end.

End ConfidenceCalculator.

Import ConfidenceCalculator.

Definition default_recovery_base : Q := 0.5.
Definition default_validation_base : Q := 0.9.

(** ** Vocabulary of the statements *)

(** A confidence value: a number of the closed interval [[0, 1]]. *)
Definition in_unit (q : Q) : Prop := 0 <= q /\ q <= 1.

(** A score that satisfies the invariant of the data model. *)
Definition valid_score (s : ConfidenceScore) : Prop := in_unit (value s).

(** The number of elements of a sequence, as a rational. *)
Definition count {A : Type} (xs : list A) : Q := inject_Z (Z.of_nat (List.length xs)).

(** The plain sum of a sequence. *)
Fixpoint total (xs : list Q) : Q :=
  match xs with
  | [] => 0
  | x :: rest => x + total rest
  end.

(** The weighted sum of a sequence of scores under parallel weights. *)
Fixpoint weighted_total (scores : list ConfidenceScore) (ws : list Q) : Q :=
  match scores, ws with
  | s :: scores', w :: ws' => value s * w + weighted_total scores' ws'
  | _, _ => 0
  end.


(** ** The specification's side of the comparisons, and names for the
    parts of the functions *)

(** The rule of the specification for one finding, to compare the loop with:
    the multiplier and the factor of a severity tag. The row of [medium] is
    taken for every tag that is neither [high] nor [low]. *)
Definition spec_multiplier (tag : string) : Q :=
  if String.eqb tag "high" then 1.2
  else if String.eqb tag "low" then 0.8
  else 1.0.

Definition spec_factor (tag : string) : string :=
  if String.eqb tag "high" then "high_severity_penalty"
  else if String.eqb tag "low" then "low_severity_penalty"
  else "medium_severity".

(** The tag and the confidence of a finding, with the defaults of the
    specification for an absent one. *)
Definition spec_tag (d : Delusion) : string := get (d_severity d) "medium".

Definition spec_confidence (d : Delusion) : Q := get (d_confidence d) 0.5.

(** The adjusted confidence of a finding. *)
Definition spec_adjusted (d : Delusion) : Q :=
  spec_confidence d * spec_multiplier (spec_tag d).


(** The list [normalize_weights] returns. *)
Definition normalized (ws : list Q) : list Q :=
  if Py.ne (Py.sum ws) 0 then map (fun w => w / Py.sum ws) ws else ws.

(** The metadata of a combined score. *)
Definition combined_metadata (scores : list ConfidenceScore) (ws : list Q)
  : Metadata :=
  [("method", MStr "combined_confidence");
   ("score_count", MInt (Py.len scores));
   ("weights", MFloats ws);
   ("individual_scores", MFloats (map value scores))].

(** The weights taken when none are given. *)
Definition equal_weights (scores : list ConfidenceScore) : list Q :=
  repeat (1.0 / count scores) (length scores).

(** The two scores of the example of the specification. *)
Definition example_scores : list ConfidenceScore :=
  [mkConfidenceScore 0.8 ["factor1"] []; mkConfidenceScore 0.6 ["factor2"] []].






(** The completion ratio and the average step confidence, as the
    specification words them. *)
Definition spec_ratio (steps_completed total_steps : Z) : Q :=
  inject_Z steps_completed / inject_Z total_steps.


(** The average the code computes. *)
Definition average_of (step_confidence_scores : list Q) : Q :=
  match step_confidence_scores with
  | [] => 0.5
  | _ :: _ => Py.sum step_confidence_scores / count step_confidence_scores
  end.

(** The metadata of a workflow score. *)
Definition workflow_metadata
  (steps_completed total_steps : Z) (ratio avg : Q) : Metadata :=
  [("method", MStr "workflow_confidence");
   ("completion_ratio", MFloat ratio);
   ("average_step_confidence", MFloat avg);
   ("steps_completed", MInt steps_completed);
   ("total_steps", MInt total_steps)].

(** ** Further vocabulary *)

From Stdlib Require Import Ascii.

(** The sum of the products of two parallel sequences of numbers. *)
Fixpoint dot (vs us : list Q) : Q :=
  match vs, us with
  | v :: vs', u :: us' => v * u + dot vs' us'
  | _, _ => 0
  end.

(** ** Python values and dictionaries

    The values of type [Any] that the rest of the package looks at, and a
    [Dict[str, Any]] as an association list read from the front. Strings are
    sequences of characters, here [ascii]. *)

Inductive pyval : Type :=
| PNone
| PBool (b : bool)
| PInt (n : Z)
| PFloat (q : Q)
| PStr (s : string)
| PObject (id : nat).

Definition Dict : Type := list (string * pyval).

(** [d.get(k)] as an option: [None] for [k not in d]. *)
Fixpoint dict_lookup (k : string) (d : Dict) : option pyval :=
  match d with
  | [] => None
  | (k', v) :: rest => if String.eqb k k' then Some v else dict_lookup k rest
  end.

(** [k in d] *)
Definition dict_contains (k : string) (d : Dict) : bool :=
  match dict_lookup k d with
  | Some _ => true
  | None => false
  end.

(** [d[k] = v]: the binding of [k] is replaced where it stands, or added at
    the end. *)
Fixpoint dict_set (k : string) (v : pyval) (d : Dict) : Dict :=
  match d with
  | [] => [(k, v)]
  | (k', v') :: rest =>
      if String.eqb k k' then (k, v) :: rest else (k', v') :: dict_set k v rest
  end.

(** [v is None] *)
Definition is_none (v : pyval) : bool :=
  match v with
  | PNone => true
  | _ => false
  end.

(** [len(s)] of a string. *)
Definition str_len (s : string) : Z := Z.of_nat (String.length s).

(** ** Regular expressions of the shape the package uses

    A pattern is a sequence of items, each a character class taken once or
    repeated at least a number of times, between [^] and [$]. [re.match]
    tries the repetitions from the longest to the shortest. *)

Module Re.

Inductive item : Type :=
| One (cls : ascii -> bool)                 (* a character of the class *)
| AtLeast (min : nat) (cls : ascii -> bool).  (* [cls{min,}]; [cls+] is [cls{1,}] *)

(** [cls{min,}] followed by the rest of the pattern, [k]. *)
Fixpoint match_at_least
  (cls : ascii -> bool) (k : string -> bool) (min : nat) (s : string) : bool :=
  match s with
  | String c s' =>
      if cls c
      then match_at_least cls k (Nat.pred min) s' || ((min =? 0)%nat && k s)
      else (min =? 0)%nat && k s
  | EmptyString => (min =? 0)%nat && k s
  end.

(** The items one after the other, then the end of the pattern. *)
Fixpoint match_items (items : list item) (at_end : string -> bool) (s : string)
  : bool :=
  match items with
  | [] => at_end s
  | One cls :: rest =>
      match s with
      | String c s' => cls c && match_items rest at_end s'
      | EmptyString => false
      end
  | AtLeast min cls :: rest =>
      match_at_least cls (match_items rest at_end) min s
  end.

(** [$]: the end of the string, or the newline that ends the string. *)
Definition dollar (s : string) : bool :=
  match s with
  | EmptyString => true
  | String c EmptyString => Ascii.eqb c "010"%char
  | _ => false
  end.

(** [bool(re.match("^" items "$", s))] *)
Definition matches (items : list item) (s : string) : bool :=
  match_items items dollar s.

(** The ranges [a-z], [A-Z] and [0-9], and a character of a list. *)
Definition in_range (lo hi c : ascii) : bool :=
  (nat_of_ascii lo <=? nat_of_ascii c)%nat
  && (nat_of_ascii c <=? nat_of_ascii hi)%nat.

Definition lower_letter (c : ascii) : bool := in_range "a" "z" c.
Definition upper_letter (c : ascii) : bool := in_range "A" "Z" c.
Definition digit (c : ascii) : bool := in_range "0" "9" c.

Definition one_of (chars : string) (c : ascii) : bool :=
  existsb (Ascii.eqb c) (list_ascii_of_string chars).

(** Every character of [s] is of the class. *)
Fixpoint all_chars (cls : ascii -> bool) (s : string) : bool :=
  match s with
  | EmptyString => true
  | String c s' => cls c && all_chars cls s'
  end.

(** The number of times a character occurs in a string. *)
Fixpoint occurrences (c : ascii) (s : string) : nat :=
  match s with
  | EmptyString => O
  | String c' s' => (if Ascii.eqb c c' then 1 else 0) + occurrences c s'
  end.

(** The strings a pattern stands for, item by item: the meaning the matcher
    is checked against. *)
Fixpoint denotes (items : list item) (at_end : string -> bool) (s : string)
  : Prop :=
  match items with
  | [] => at_end s = true
  | One cls :: rest =>
      exists c s', s = String c s' /\ cls c = true /\ denotes rest at_end s'
  | AtLeast min cls :: rest =>
      exists p r, s = (p ++ r)%string
                  /\ all_chars cls p = true
                  /\ (min <= String.length p)%nat
                  /\ denotes rest at_end r
  end.

(** The one-character string of a newline. *)
Definition newline : string := String "010"%char EmptyString.

End Re.

(** ** ValidationUtils *)

Module ValidationUtils.

(** [[a-zA-Z0-9._%+-]] *)
Definition local_char (c : ascii) : bool :=
  Re.lower_letter c || Re.upper_letter c || Re.digit c || Re.one_of "._%+-" c.

(** [[a-zA-Z0-9.-]] *)
Definition domain_char (c : ascii) : bool :=
  Re.lower_letter c || Re.upper_letter c || Re.digit c || Re.one_of ".-" c.

(** [[a-zA-Z]] *)
Definition letter (c : ascii) : bool :=
  Re.lower_letter c || Re.upper_letter c.

(** [^[a-zA-Z0-9._%+-]+@[a-zA-Z0-9.-]+\.[a-zA-Z]{2,}$] *)
Definition email_pattern : list Re.item :=
  [Re.AtLeast 1 local_char;
   Re.One (Ascii.eqb "@");
   Re.AtLeast 1 domain_char;
   Re.One (Ascii.eqb ".");
   Re.AtLeast 2 letter].

Definition validate_email (email : string) : bool :=
  Re.matches email_pattern email.

(** [field not in data or data[field] is None] *)
Definition is_missing (data : Dict) (field : string) : bool :=
  match dict_lookup field data with
  | None => true
  | Some v => is_none v
  end.

(** The body of the loop, on [errors]. *)
Definition required_loop_body
  (data : Dict) (errors : list string) (field : string) : list string :=
  if is_missing data field
  then errors ++ [("Missing required field: " ++ field)%string]
  else errors.

Definition validate_required_fields
  (data : Dict) (required_fields : list string) : list string :=
  fold_left (required_loop_body data) required_fields [].

(** [min_length] defaults to [0] and [max_length] to [None]. *)
Definition validate_string_length
  (value : pyval) (min_length : Z) (max_length : option Z) : bool :=
  match value with
  | PStr s =>
      if (str_len s <? min_length)%Z then false
      else
        match max_length with
        | Some m => if (m <? str_len s)%Z then false else true
        | None => true
        end
  | _ => false
  end.

End ValidationUtils.

(** ** Exceptions and outcomes of the rest of the package *)

(** The exceptions the code tells apart; [str(e)] is the message. *)
Inductive exception : Type :=
| ValueErr (msg : string)         (* ValueError *)
| TypeErr (msg : string)          (* TypeError *)
| TimeoutErr                      (* asyncio.TimeoutError *)
| OtherErr (name msg : string).   (* any other subclass of Exception *)

Inductive outcome (A : Type) : Type :=
| Returns (a : A)
| Throws (e : exception).

Arguments Returns {A} a.
Arguments Throws {A} e.

(** ** ConfigManager *)

Module ConfigManager.

(** The environment of the process, [os.environ]. *)
Definition Env : Type := list (string * string).

(** [os.getenv(key)] *)
Fixpoint getenv (env : Env) (key : string) : option string :=
  match env with
  | [] => None
  | (k, v) :: rest => if String.eqb key k then Some v else getenv rest key
  end.

Record t : Type := mk {
  config_file : option string;
  _config_cache : Dict
}.

(** [__init__] *)
Definition init (config_file : option string) : t := mk config_file [].

(** The [type_hint] argument: [bool] itself, or another callable, given by
    what calling it on a value does. *)
Inductive hint : Type :=
| Bool
| Callable (convert : pyval -> outcome pyval).

(** The truth value of [self.config_file]. *)
Definition file_given (self : t) : bool :=
  match config_file self with
  | Some (String _ _) => true
  | _ => false
  end.

Definition _get_from_file (self : t) (key : string) (default : pyval) : pyval :=
  default.

(** [str.lower] on the letters [A] to [Z]. *)
Definition lower_char (c : ascii) : ascii :=
  if Re.upper_letter c then ascii_of_nat (nat_of_ascii c + 32) else c.

Fixpoint lower (s : string) : string :=
  match s with
  | EmptyString => EmptyString
  | String c s' => String (lower_char c) (lower s')
  end.

Definition _parse_bool (value : pyval) : bool :=
  match value with
  | PBool b => b
  | PStr s => existsb (String.eqb (lower s)) ["true"; "1"; "yes"; "on"]
  | PInt n => negb (n =? 0)%Z
  | PFloat q => negb (Qeq_bool q 0)
  | _ => false
  end.

(** The [try] block of [get]: the conversion and its handler. *)
Definition convert (key : string) (type_hint : hint) (value : pyval)
  : outcome pyval :=
  match type_hint with
  | Bool => Returns (PBool (_parse_bool value))
  | Callable f =>
      match f value with
      | Returns v => Returns v
      | Throws (ValueErr e) =>
          Throws (ValueErr ("Invalid type for configuration '" ++ key
                            ++ "': " ++ e)%string)
      | Throws (TypeErr e) =>
          Throws (ValueErr ("Invalid type for configuration '" ++ key
                            ++ "': " ++ e)%string)
      | Throws e => Throws e
      end
  end.

(** [default] defaults to [None], [required] to [False] and [type_hint] to
    [None]. *)
Definition get (self : t) (env : Env) (key : string) (default : pyval)
  (required : bool) (type_hint : option hint) : outcome pyval :=
  let value :=
    match getenv env key with
    | Some v => PStr v
    | None => default
    end in
  let value :=
    if is_none value && file_given self
    then _get_from_file self key default
    else value in
  if required && is_none value then
    Throws (ValueErr ("Required configuration '" ++ key ++ "' not found")%string)
  else
    match type_hint with
    | Some h => if negb (is_none value) then convert key h value
                else Returns value
    | None => Returns value
    end.

Definition set (self : t) (key : string) (value : pyval) : t :=
  mk (config_file self) (dict_set key value (_config_cache self)).

Definition has (self : t) (env : Env) (key : string) : bool :=
  match getenv env key with
  | Some _ => true
  | None => false
  end
  || dict_contains key (_config_cache self).

End ConfigManager.

(** ** AsyncExecutor

    An awaited attempt, [await asyncio.wait_for(operation(...), timeout)],
    is given by what it does at each attempt under a timeout: it completes
    with a value, it fails with an exception (a timeout is one), or it is
    cut short by something that is not an [Exception]. A run records the
    sleeps in seconds and the number of attempts made. *)

Module AsyncExecutor.

Record t : Type := mk {
  default_timeout : Z;
  default_retries : Z
}.

(** [__init__], whose arguments default to [30] and [3]. *)
Definition init (default_timeout default_retries : Z) : t :=
  mk default_timeout default_retries.

Inductive attempt : Type :=
| Completes (v : pyval)
| Fails (e : exception)
| Aborts (what : string).

Definition Operation : Type := Z -> Z -> attempt.

Inductive final : Type :=
| Returned (v : pyval)
| Raised (e : exception)
| Aborted (what : string).

Record run : Type := mkrun {
  result : final;
  sleeps : list Z;
  calls : nat
}.

(** [x or d] for an optional int. *)
Definition or_default (x : option Z) (d : Z) : Z :=
  match x with
  | Some n => if (n =? 0)%Z then d else n
  | None => d
  end.

(** [range(n)] *)
Definition range (n : Z) : list Z := map Z.of_nat (seq 0 (Z.to_nat n)).

(** The [for attempt in ...] loop on the attempts left; after the loop the
    function ends and returns [None]. *)
Fixpoint retry_loop (operation : Operation) (timeout max_retries : Z)
  (attempts : list Z) (slept : list Z) (made : nat) : run :=
  match attempts with
  | [] => mkrun (Returned PNone) slept made
  | attempt :: rest =>
      match operation attempt timeout with
      | Completes v => mkrun (Returned v) slept (S made)
      | Fails e =>
          if (attempt =? max_retries)%Z
          then mkrun (Raised e) slept (S made)
          else retry_loop operation timeout max_retries rest
                 (slept ++ [(1 * 2 ^ attempt)%Z]) (S made)
      | Aborts what => mkrun (Aborted what) slept (S made)
      end
  end.

Definition execute_with_retry (self : t) (operation : Operation)
  (max_retries timeout : option Z) : run :=
  let max_retries := or_default max_retries (default_retries self) in
  let timeout := or_default timeout (default_timeout self) in
  retry_loop operation timeout max_retries (range (max_retries + 1)) [] 0.

End AsyncExecutor.

(** The sum of a list of integers. *)
Definition zsum (xs : list Z) : Z := fold_right Z.add 0%Z xs.

(** ** The operations in binary64

    Python's [float] is the IEEE 754 binary64 format, each operation rounded
    to nearest, ties to even. Where a property turns on the rounding, the
    constructor, the workflow score and the combination are given again
    here on Rocq's primitive floats, which are that format. The exact
    operations above are these with the rounding left out. *)

From Stdlib Require Import PrimFloat.
From Stdlib Require FloatAxioms SpecFloat FloatOps.

Set Warnings "-inexact-float".

Module Binary64.

(** An int as a float of unbounded mantissa. *)
Definition of_Z (n : Z) : SpecFloat.spec_float :=
  match n with
  | Z0 => SpecFloat.S754_zero false
  | Zpos p => SpecFloat.S754_finite false p 0
  | Zneg p => SpecFloat.S754_finite true p 0
  end.

(** The quotient of two ints, rounded once. *)
Definition quotient (a b : Z) : float :=
  FloatOps.SF2Prim
    (SpecFloat.SFdiv FloatOps.prec FloatOps.emax (of_Z a) (of_Z b)).

(** [a / b] on ints: true division. *)
Definition int_div (a b : Z) : result float :=
  if (b =? 0)%Z then Raise ZeroDivisionError
  else
    let q := quotient a b in
    if PrimFloat.is_infinity q then Raise OverflowError else Ok q.

(** [float(n)] *)
Definition of_int (n : Z) : float := quotient n 1.

(** [len(xs)] *)
Definition len {A : Type} (xs : list A) : Z := Z.of_nat (length xs).

(** [a < b] and [a != b] on floats. *)
Definition lt (a b : float) : bool := PrimFloat.ltb a b.
Definition ne (a b : float) : bool := negb (PrimFloat.eqb a b).

(** [min(a, b)] and [max(a, b)]: the first argument stays unless the second
    is strictly smaller, or larger. *)
Definition min (a b : float) : float := if lt b a then b else a.
Definition max (a b : float) : float := if lt a b then b else a.

(** [sum(xs)]: starts from [0] and adds from the left, every addition
    rounded, as CPython does up to version 3.11. From 3.12 on CPython keeps
    the rounding errors of the additions and adds their sum at the end; the
    concrete inputs the statements below are run on give the same under
    both. *)
Definition sum (xs : list float) : float :=
  fold_left PrimFloat.add xs 0%float.

(** [a / b] on floats. *)
Definition div (a b : float) : result float :=
  if PrimFloat.eqb b 0%float then Raise ZeroDivisionError
  else Ok (PrimFloat.div a b).

(** [a / n] for a float and an int: the int is converted, and its float is
    zero exactly when it is. *)
Definition div_int (a : float) (n : Z) : result float :=
  if (n =? 0)%Z then Raise ZeroDivisionError
  else Ok (PrimFloat.div a (of_int n)).

Inductive meta_value : Type :=
| MStr (s : string)
| MInt (n : Z)
| MFloat (f : float)
| MFloats (fs : list float).

Definition Metadata : Type := list (string * meta_value).

Fixpoint meta_get (k : string) (md : Metadata) : option meta_value :=
  match md with
  | [] => None
  | (k', v) :: rest => if String.eqb k k' then Some v else meta_get k rest
  end.

Record ConfidenceScore : Type := mkConfidenceScore {
  value : float;
  factors : list string;
  metadata : Metadata
}.

Definition validate_confidence (v : float) : float :=
  max 0%float (min 1%float v).

(** [ge=0.0, le=1.0]; a NaN fails both. *)
Definition value_field_ok (v : float) : bool :=
  PrimFloat.leb 0%float v && PrimFloat.leb v 1%float.

Definition ConfidenceScore_new (v : float) (fs : list string) (md : Metadata)
  : result ConfidenceScore :=
  if value_field_ok v
  then Ok (mkConfidenceScore (validate_confidence v) fs md)
  else Raise (ValidationError "value").

Definition completion_factor (completion_ratio : float) : string :=
  if PrimFloat.eqb completion_ratio 1.0%float then "workflow_completed"
  else if lt 0.5%float completion_ratio then "workflow_partially_completed"
  else "workflow_early_stage".

Definition step_confidence_factor (avg_step_confidence : float)
  : list string :=
  if lt 0.8%float avg_step_confidence then ["high_step_confidence"]
  else if lt avg_step_confidence 0.3%float then ["low_step_confidence"]
  else [].

Definition avg_step_confidence_of (step_confidence_scores : list float)
  : result float :=
  match step_confidence_scores with
  | [] => Ok 0.5%float
  | _ :: _ => div_int (sum step_confidence_scores)
                      (len step_confidence_scores)
  end.

Definition calculate_workflow_confidence
  (steps_completed total_steps : Z) (step_confidence_scores : list float)
  : result ConfidenceScore :=
  if (total_steps =? 0)%Z then
    ConfidenceScore_new 0.0%float ["no_steps_defined"]
      [("method", MStr "workflow_confidence")]
  else
    completion_ratio <- int_div steps_completed total_steps ;;
    avg_step_confidence <- avg_step_confidence_of step_confidence_scores ;;
    let final_confidence :=
      PrimFloat.add (PrimFloat.mul completion_ratio 0.6%float)
                    (PrimFloat.mul avg_step_confidence 0.4%float) in
    let factors :=
      [] ++ [completion_factor completion_ratio]
         ++ step_confidence_factor avg_step_confidence in
    ConfidenceScore_new final_confidence factors
      [("method", MStr "workflow_confidence");
       ("completion_ratio", MFloat completion_ratio);
       ("average_step_confidence", MFloat avg_step_confidence);
       ("steps_completed", MInt steps_completed);
       ("total_steps", MInt total_steps)].

Definition normalize_weights (weights : list float) : result (list float) :=
  let weight_sum := sum weights in
  if ne weight_sum 0%float then mapM (fun w => div w weight_sum) weights
  else Ok weights.

Definition weighted_sum (scores : list ConfidenceScore) (weights : list float)
  : float :=
  sum (map (fun sw => PrimFloat.mul (value (fst sw)) (snd sw))
           (List.combine scores weights)).

Definition all_factors_of (scores : list ConfidenceScore) : list string :=
  fold_left (fun all_factors score => all_factors ++ factors score)
            scores [].

Definition default_weights (scores : list ConfidenceScore)
  (weights : option (list float)) : result (list float) :=
  match weights with
  | None =>
      w <- div_int 1.0%float (len scores) ;;
      Ok (List.repeat w (Z.to_nat (len scores)))
  | Some ws => Ok ws
  end.

Definition combine_confidence_scores
  (scores : list ConfidenceScore) (weights : option (list float))
  : result ConfidenceScore :=
  match scores with
  | [] =>
      ConfidenceScore_new 0.0%float ["no_scores_provided"]
        [("method", MStr "combined_confidence")]
  | _ :: _ =>
      weights <- default_weights scores weights ;;
      if negb (len weights =? len scores)%Z then
        Raise (ValueError ConfidenceCalculator.mismatch_message)
      else
        weights <- normalize_weights weights ;;
        let combined_value := weighted_sum scores weights in
        let all_factors := all_factors_of scores in
        ConfidenceScore_new combined_value all_factors
          [("method", MStr "combined_confidence");
           ("score_count", MInt (len scores));
           ("weights", MFloats weights);
           ("individual_scores", MFloats (map value scores))]
  end.

(** The list [normalize_weights] returns. *)
Definition normalized (ws : list float) : list float :=
  if ne (sum ws) 0%float then map (fun w => PrimFloat.div w (sum ws)) ws
  else ws.

(** The weights taken when none are given. *)
Definition equal_weights (scores : list ConfidenceScore) : list float :=
  List.repeat (PrimFloat.div 1.0%float (of_int (len scores))) (length scores).


(** The two scores of the example of the specification. *)
Definition example_scores : list ConfidenceScore :=
  [mkConfidenceScore 0.8%float ["factor1"] [];
   mkConfidenceScore 0.6%float ["factor2"] []].

End Binary64.


(** * Properties *)

(** ** Comparisons, [min] and [max] *)

Lemma lt_true_iff (a b : Q) : Py.lt a b = true <-> a < b.
Proof.
  unfold Py.lt. rewrite negb_true_iff, <- not_true_iff_false, Qle_bool_iff.
  split; intro H; [apply Qnot_le_lt | apply Qlt_not_le]; exact H.
Qed.

Lemma lt_false_iff (a b : Q) : Py.lt a b = false <-> b <= a.
Proof.
  unfold Py.lt. rewrite negb_false_iff. apply Qle_bool_iff.
Qed.

Lemma ne_true_iff (a b : Q) : Py.ne a b = true <-> ~ a == b.
Proof.
  unfold Py.ne. rewrite negb_true_iff, <- not_true_iff_false, Qeq_bool_iff.
  reflexivity.
Qed.


Lemma min_cases (a b : Q) :
  (b < a /\ Py.min a b = b) \/ (a <= b /\ Py.min a b = a).
Proof.
  unfold Py.min. destruct (Py.lt b a) eqn:E.
  - left. split; [apply lt_true_iff; exact E | reflexivity].
  - right. split; [apply lt_false_iff; exact E | reflexivity].
Qed.

Lemma max_cases (a b : Q) :
  (a < b /\ Py.max a b = b) \/ (b <= a /\ Py.max a b = a).
Proof.
  unfold Py.max. destruct (Py.lt a b) eqn:E.
  - left. split; [apply lt_true_iff; exact E | reflexivity].
  - right. split; [apply lt_false_iff; exact E | reflexivity].
Qed.

(** Python's [min] and [max] compute the minimum and the maximum. *)
Lemma min_is_Qmin (a b : Q) : Py.min a b == Qmin a b.
Proof.
  destruct (min_cases a b) as [[H ->] | [H ->]].
  - symmetry. apply Q.min_r. apply Qlt_le_weak. exact H.
  - symmetry. apply Q.min_l. exact H.
Qed.

Lemma max_is_Qmax (a b : Q) : Py.max a b == Qmax a b.
Proof.
  destruct (max_cases a b) as [[H ->] | [H ->]].
  - symmetry. apply Q.max_r. apply Qlt_le_weak. exact H.
  - symmetry. apply Q.max_l. exact H.
Qed.

(** Splits every [Py.min] and [Py.max] of the goal into its two cases. *)
Ltac py_minmax :=
  repeat match goal with
         | |- context [Py.min ?a ?b] =>
             let H := fresh "Hmin" in
             let E := fresh "Emin" in
             destruct (min_cases a b) as [[H E] | [H E]];
             rewrite E in *; clear E
         | |- context [Py.max ?a ?b] =>
             let H := fresh "Hmax" in
             let E := fresh "Emax" in
             destruct (max_cases a b) as [[H E] | [H E]];
             rewrite E in *; clear E
         end.

Lemma clamp_in_unit (v : Q) : in_unit (Py.max 0 (Py.min 1 v)).
Proof. unfold in_unit. py_minmax; lra. Qed.

Lemma clamp_id (v : Q) : in_unit v -> Py.max 0 (Py.min 1 v) == v.
Proof. unfold in_unit. intros [H0 H1]. py_minmax; lra. Qed.

(** ** Construction *)

Lemma value_field_ok_iff (v : Q) : value_field_ok v = true <-> in_unit v.
Proof.
  unfold value_field_ok, in_unit.
  rewrite andb_true_iff, !Qle_bool_iff. reflexivity.
Qed.

(** What the constructor returns on a value of the interval. *)
Lemma new_in_unit (v : Q) (fs : list string) (md : Metadata) :
  in_unit v ->
  exists s, ConfidenceScore_new v fs md = Ok s
            /\ value s == v /\ factors s = fs /\ metadata s = md.
Proof.
  intro Hv. unfold ConfidenceScore_new.
  apply value_field_ok_iff in Hv as Hok. rewrite Hok.
  eexists. split; [reflexivity |]. cbn.
  split; [apply clamp_id; exact Hv | split; reflexivity].
Qed.

(** What the constructor does on a value outside the interval. *)
Lemma new_out_of_unit (v : Q) (fs : list string) (md : Metadata) :
  ~ in_unit v -> ConfidenceScore_new v fs md = Raise (ValidationError "value").
Proof.
  intro Hv. unfold ConfidenceScore_new.
  destruct (value_field_ok v) eqn:E; [| reflexivity].
  apply value_field_ok_iff in E. contradiction.
Qed.

(** Every score the constructor returns satisfies the invariant, and it is
    built from the arguments. *)
Lemma new_inv (v : Q) (fs : list string) (md : Metadata) (s : ConfidenceScore) :
  ConfidenceScore_new v fs md = Ok s ->
  in_unit v /\ value s == v /\ factors s = fs /\ metadata s = md.
Proof.
  unfold ConfidenceScore_new. destruct (value_field_ok v) eqn:E; [| discriminate].
  apply value_field_ok_iff in E. intros [= <-]. cbn.
  split; [exact E | split; [apply clamp_id; exact E | split; reflexivity]].
Qed.


(** ** Division *)

Lemma div_ok (a b : Q) : ~ b == 0 -> Py.div a b = Ok (a / b).
Proof.
  intro Hb. unfold Py.div. destruct (Qeq_bool b 0) eqn:E; [| reflexivity].
  apply Qeq_bool_iff in E. contradiction.
Qed.

Lemma count_cons_nonzero {A : Type} (x : A) (xs : list A) :
  ~ Py.of_int (Py.len (x :: xs)) == 0.
Proof.
  unfold Py.of_int, Py.len. intro H.
  unfold Qeq in H. cbn [inject_Z Qnum Qden List.length] in H. lia.
Qed.

Lemma count_cons_pos {A : Type} (x : A) (xs : list A) :
  0 < Py.of_int (Py.len (x :: xs)).
Proof.
  unfold Py.of_int, Py.len. change 0 with (inject_Z 0).
  rewrite <- Zlt_Qlt. cbn [List.length]. lia.
Qed.

Lemma mapM_div (s : Q) (ws : list Q) :
  ~ s == 0 -> mapM (fun w => Py.div w s) ws = Ok (map (fun w => w / s) ws).
Proof.
  intro Hs. induction ws as [| w ws IH]; cbn; [reflexivity |].
  rewrite (div_ok w s Hs), IH. reflexivity.
Qed.

(** ** Sums *)

Lemma fold_left_Qplus (xs : list Q) (a : Q) :
  fold_left Qplus xs a == a + total xs.
Proof.
  revert a. induction xs as [| x xs IH]; intro a; cbn.
  - ring.
  - rewrite IH. ring.
Qed.

Lemma sum_is_total (xs : list Q) : Py.sum xs == total xs.
Proof. unfold Py.sum. rewrite fold_left_Qplus. ring. Qed.

Lemma count_eq {A : Type} (xs : list A) : Py.of_int (Py.len xs) = count xs.
Proof. reflexivity. Qed.

Lemma count_pos {A : Type} (xs : list A) : xs <> [] -> 0 < count xs.
Proof.
  destruct xs as [| x xs]; [congruence |]. intros _. apply (count_cons_pos x xs).
Qed.

(** ** normalize_confidence *)

(** C8. [normalize_confidence] sends every number into [[0, 1]]: the result
    is the number clamped to the nearest bound ([0] below the interval, [1]
    above it, the number itself inside it); normalizing twice is normalizing
    once; [1.5] goes to [1.0] and [-0.5] to [0.0]. *)
Theorem normalize_confidence_clamps (x : Q) :
  in_unit (normalize_confidence x)
  /\ normalize_confidence x == Qmax 0 (Qmin 1 x)
  /\ (x <= 0 -> normalize_confidence x == 0)
  /\ (1 <= x -> normalize_confidence x == 1)
  /\ (in_unit x -> normalize_confidence x == x)
  /\ normalize_confidence (normalize_confidence x) == normalize_confidence x
  /\ normalize_confidence 1.5 == 1.0
  /\ normalize_confidence (-0.5) == 0.0.
Proof.
  unfold normalize_confidence, in_unit.
  split; [| split; [| split; [| split; [| split; [| split; [| split]]]]]].
  - py_minmax; lra.
  - rewrite max_is_Qmax, min_is_Qmin.
    apply Q.max_compat; [| apply Q.min_compat]; (reflexivity || (vm_compute; reflexivity)).
  - intro H. py_minmax; lra.
  - intro H. py_minmax; lra.
  - intros [H0 H1]. py_minmax; lra.
  - py_minmax; lra.
  - vm_compute. reflexivity.
  - vm_compute. reflexivity.
Qed.

Lemma normalize_confidence_clamps_witness :
  in_unit 0.5 /\ normalize_confidence 0.5 == 0.5.
Proof.
  assert (H : in_unit 0.5) by (unfold in_unit; lra).
  split; [exact H |].
  exact (proj1 (proj2 (proj2 (proj2 (proj2
           (normalize_confidence_clamps 0.5))))) H).
Defined.

(** ** Construction of a score *)

(** C1, at the inputs where the code departs from it. The constructor does
    not clamp a value outside [[0, 1]]: it raises a validation error, for
    [1.5] and [-0.5] given directly and for the workflow score of 10
    completed steps out of 5, whose value before construction is [1.6]. *)
Theorem out_of_range_value_is_rejected :
  ConfidenceScore_new 1.5 [] [] = Raise (ValidationError "value")
  /\ ConfidenceScore_new (-0.5) [] [] = Raise (ValidationError "value")
  /\ calculate_workflow_confidence 10 5 [1.0]
     = Raise (ValidationError "value").
Proof. repeat split; vm_compute; reflexivity. Qed.

(** ** calculate_recovery_confidence *)

(** C5. With a base confidence of the interval: on [n >= 1] changes the
    value is [min(0.9, base + min(0.4, n * 0.1))] and the factors are
    [changes_successful] and [multiple_changes], for a single change too; on
    no change the value is the base and the factor [no_changes_made]; three
    changes on the default base give [0.8]. *)
Theorem recovery_confidence_spec (base : Q) (changes : list string) :
  in_unit base ->
  (changes <> [] ->
   exists s, calculate_recovery_confidence changes base = Ok s
             /\ value s == Qmin 0.9 (base + Qmin 0.4 (count changes * 0.1))
             /\ factors s = ["changes_successful"; "multiple_changes"])
  /\ (exists s, calculate_recovery_confidence [] base = Ok s
                /\ value s == base /\ factors s = ["no_changes_made"])
  /\ (exists s, calculate_recovery_confidence ["only"] base = Ok s
                /\ factors s = ["changes_successful"; "multiple_changes"])
  /\ (exists s, calculate_recovery_confidence ["fix1"; "fix2"; "fix3"]
                  default_recovery_base = Ok s
                /\ value s == 0.8
                /\ factors s = ["changes_successful"; "multiple_changes"]).
Proof.
  intro Hb.
  assert (General : forall cs : list string, cs <> [] ->
    exists s, calculate_recovery_confidence cs base = Ok s
              /\ value s == Qmin 0.9 (base + Qmin 0.4 (count cs * 0.1))
              /\ factors s = ["changes_successful"; "multiple_changes"]).
  { intros cs Hne. destruct cs as [| c cs]; [congruence |].
    pose proof (count_cons_pos c cs) as Hn.
    unfold calculate_recovery_confidence. rewrite !count_eq in *.
    set (n := count (c :: cs)) in *.
    match goal with
    | |- exists s, ConfidenceScore_new ?v ?fs ?md = _ /\ _ =>
        destruct (new_in_unit v fs md) as (s & Hs & Hv & Hf & _)
    end.
    - destruct Hb as [Hb0 Hb1]. unfold in_unit. py_minmax; lra.
    - exists s. split; [exact Hs | split; [| exact Hf]].
      rewrite Hv, !min_is_Qmin. reflexivity. }
  split; [| split; [| split]].
  - apply General.
  - destruct (new_in_unit base ["no_changes_made"]
                [("method", MStr "recovery_confidence");
                 ("base_confidence", MFloat base)] Hb)
      as (s & Hs & Hv & Hf & _).
    exists s. cbn. auto.
  - destruct (General ["only"]) as (s & Hs & _ & Hf); [discriminate |].
    exists s. auto.
  - eexists. split; [vm_compute; reflexivity |]. split; reflexivity.
Qed.

Lemma recovery_confidence_spec_witness :
  exists s, calculate_recovery_confidence ["fix1"; "fix2"] 0.5 = Ok s
            /\ value s == Qmin 0.9 (0.5 + Qmin 0.4 (count ["fix1"; "fix2"] * 0.1)).
Proof.
  assert (Hb : in_unit 0.5) by (unfold in_unit; lra).
  destruct (proj1 (recovery_confidence_spec 0.5 ["fix1"; "fix2"] Hb))
    as (s & Hs & Hv & _); [discriminate |].
  exists s. split; assumption.
Defined.

(** ** calculate_validation_confidence *)

(** C6. With a base confidence of the interval: on [n >= 1] issues the value
    is [max(0.1, base - min(0.8, n * 0.1))] and the factors are
    [issues_found] and [multiple_issues], for a single issue too; on no issue
    the value is the base and the factor [no_issues_found]; two issues on the
    default base give [0.7]. *)
Theorem validation_confidence_spec (base : Q) (issues : list string) :
  in_unit base ->
  (issues <> [] ->
   exists s, calculate_validation_confidence issues base = Ok s
             /\ value s == Qmax 0.1 (base - Qmin 0.8 (count issues * 0.1))
             /\ factors s = ["issues_found"; "multiple_issues"])
  /\ (exists s, calculate_validation_confidence [] base = Ok s
                /\ value s == base /\ factors s = ["no_issues_found"])
  /\ (exists s, calculate_validation_confidence ["only"] base = Ok s
                /\ factors s = ["issues_found"; "multiple_issues"])
  /\ (exists s, calculate_validation_confidence ["issue1"; "issue2"]
                  default_validation_base = Ok s
                /\ value s == 0.7
                /\ factors s = ["issues_found"; "multiple_issues"]).
Proof.
  intro Hb.
  assert (General : forall xs : list string, xs <> [] ->
    exists s, calculate_validation_confidence xs base = Ok s
              /\ value s == Qmax 0.1 (base - Qmin 0.8 (count xs * 0.1))
              /\ factors s = ["issues_found"; "multiple_issues"]).
  { intros xs Hne. destruct xs as [| i xs]; [congruence |].
    pose proof (count_cons_pos i xs) as Hn.
    unfold calculate_validation_confidence. rewrite !count_eq in *.
    set (n := count (i :: xs)) in *.
    match goal with
    | |- exists s, ConfidenceScore_new ?v ?fs ?md = _ /\ _ =>
        destruct (new_in_unit v fs md) as (s & Hs & Hv & Hf & _)
    end.
    - destruct Hb as [Hb0 Hb1]. unfold in_unit. py_minmax; lra.
    - exists s. split; [exact Hs | split; [| exact Hf]].
      rewrite Hv, max_is_Qmax, min_is_Qmin. reflexivity. }
  split; [| split; [| split]].
  - apply General.
  - destruct (new_in_unit base ["no_issues_found"]
                [("method", MStr "validation_confidence");
                 ("base_confidence", MFloat base)] Hb)
      as (s & Hs & Hv & Hf & _).
    exists s. cbn. auto.
  - destruct (General ["only"]) as (s & Hs & _ & Hf); [discriminate |].
    exists s. auto.
  - eexists. split; [vm_compute; reflexivity |]. split; reflexivity.
Qed.

Lemma validation_confidence_spec_witness :
  exists s, calculate_validation_confidence ["issue1"] 0.9 = Ok s
            /\ value s == Qmax 0.1 (0.9 - Qmin 0.8 (count ["issue1"] * 0.1)).
Proof.
  assert (Hb : in_unit 0.9) by (unfold in_unit; lra).
  destruct (proj1 (validation_confidence_spec 0.9 ["issue1"] Hb))
    as (s & Hs & Hv & _); [discriminate |].
  exists s. split; assumption.
Defined.

(** ** calculate_agent_confidence *)

(** One turn of the loop adds the adjusted confidence and appends the
    factor of the tag. *)
Lemma agent_loop_body_spec (t : Q) (fs : list string) (d : Delusion) :
  fst (agent_loop_body (t, fs) d) == t + spec_adjusted d
  /\ snd (agent_loop_body (t, fs) d) = fs ++ [spec_factor (spec_tag d)].
Proof.
  unfold agent_loop_body, spec_adjusted, spec_multiplier, spec_factor,
    spec_tag, spec_confidence.
  destruct (String.eqb (get (d_severity d) "medium") "high");
    [| destruct (String.eqb (get (d_severity d) "medium") "low")];
    cbn; split; try reflexivity.
  assert (E : 1.0 == 1) by reflexivity. rewrite E. ring.
Qed.

(** The whole loop, from any state. *)
Lemma agent_loop_spec (ds : list Delusion) (t : Q) (fs : list string) :
  fst (fold_left agent_loop_body ds (t, fs))
  == t + total (map spec_adjusted ds)
  /\ snd (fold_left agent_loop_body ds (t, fs))
     = fs ++ map (fun d => spec_factor (spec_tag d)) ds.
Proof.
  revert t fs. induction ds as [| d ds IH]; intros t fs.
  - cbn. split; [ring | symmetry; apply app_nil_r].
  - cbn [fold_left map total].
    destruct (agent_loop_body (t, fs) d) as [t1 fs1] eqn:E.
    destruct (agent_loop_body_spec t fs d) as [Ht Hf].
    rewrite E in Ht, Hf. cbn [fst snd] in Ht, Hf.
    destruct (IH t1 fs1) as [IHt IHf]. split.
    + rewrite IHt, Ht. ring.
    + rewrite IHf, Hf, <- app_assoc. reflexivity.
Qed.

(** The function on a non-empty sequence: one call of the constructor, on
    the clipped average. *)
Lemma agent_confidence_nonempty (ds : list Delusion) (base : Q) :
  ds <> [] ->
  exists (t : Q) (md : Metadata),
    t == total (map spec_adjusted ds)
    /\ calculate_agent_confidence ds base
       = ConfidenceScore_new (Py.min (t / count ds) 1.0)
           (map (fun d => spec_factor (spec_tag d)) ds) md.
Proof.
  intro Hne. destruct ds as [| d ds]; [congruence |].
  unfold calculate_agent_confidence.
  destruct (agent_loop_spec (d :: ds) 0.0 []) as [Ht Hf].
  destruct (fold_left agent_loop_body (d :: ds) (0.0, [])) as [t fs].
  cbn [fst snd] in Ht, Hf. cbn [app] in Hf. subst fs.
  rewrite (div_ok t _ (count_cons_nonzero d ds)). cbn [bind].
  eexists t, _. split; [| reflexivity].
  rewrite Ht. assert (E : 0.0 == 0) by reflexivity. rewrite E. ring.
Qed.

Lemma div_nonneg (a b : Q) : 0 <= a -> 0 < b -> 0 <= a / b.
Proof.
  intros Ha Hb. apply Qle_shift_div_l; [exact Hb |]. lra.
Qed.






(** ** combine_confidence_scores: the parts of the function *)

Lemma normalize_weights_ok (ws : list Q) :
  normalize_weights ws = Ok (normalized ws).
Proof.
  unfold normalize_weights, normalized.
  destruct (Py.ne (Py.sum ws) 0) eqn:E; [| reflexivity].
  apply mapM_div. apply ne_true_iff. exact E.
Qed.

Lemma normalized_length (ws : list Q) : length (normalized ws) = length ws.
Proof.
  unfold normalized. destruct (Py.ne (Py.sum ws) 0); [apply length_map | reflexivity].
Qed.




Lemma weighted_sum_is_weighted_total
  (scores : list ConfidenceScore) (ws : list Q) :
  weighted_sum scores ws == weighted_total scores ws.
Proof.
  unfold weighted_sum. rewrite sum_is_total. unfold Py.zip.
  revert ws. induction scores as [| s scores IH]; intros [| w ws]; cbn;
    try reflexivity.
  rewrite IH. reflexivity.
Qed.

Lemma len_eq_iff {A B : Type} (xs : list A) (ys : list B) :
  (Py.len xs =? Py.len ys)%Z = true <-> length xs = length ys.
Proof. unfold Py.len. rewrite Z.eqb_eq. lia. Qed.

(** With weights of the right number, the function is one call of the
    constructor on the weighted sum under the normalized weights. *)
Lemma combine_matching (scores : list ConfidenceScore) (ws : list Q) :
  scores <> [] -> length ws = length scores ->
  combine_confidence_scores scores (Some ws)
  = ConfidenceScore_new (weighted_sum scores (normalized ws))
      (all_factors_of scores) (combined_metadata scores (normalized ws)).
Proof.
  intros Hne Hlen. destruct scores as [| s scores]; [congruence |].
  unfold combine_confidence_scores, default_weights. cbn [bind].
  apply len_eq_iff in Hlen. rewrite Hlen. cbn [negb].
  rewrite normalize_weights_ok. reflexivity.
Qed.

(** With weights of another number, it raises. *)
Lemma combine_mismatch (scores : list ConfidenceScore) (ws : list Q) :
  scores <> [] -> length ws <> length scores ->
  combine_confidence_scores scores (Some ws)
  = Raise (ValueError mismatch_message).
Proof.
  intros Hne Hlen. destruct scores as [| s scores]; [congruence |].
  unfold combine_confidence_scores, default_weights. cbn [bind].
  destruct (Py.len ws =? Py.len (s :: scores))%Z eqn:E; [| reflexivity].
  apply len_eq_iff in E. contradiction.
Qed.

Lemma replicate_len {A B : Type} (x : A) (xs : list B) :
  Py.replicate x (Py.len xs) = repeat x (length xs).
Proof. unfold Py.replicate, Py.len. rewrite Nat2Z.id. reflexivity. Qed.

Lemma combine_none (scores : list ConfidenceScore) :
  scores <> [] ->
  combine_confidence_scores scores None
  = combine_confidence_scores scores (Some (equal_weights scores)).
Proof.
  intro Hne. destruct scores as [| s scores]; [congruence |].
  unfold combine_confidence_scores, default_weights.
  rewrite (div_ok 1.0 _ (count_cons_nonzero s scores)). cbn [bind].
  rewrite !replicate_len. reflexivity.
Qed.

Lemma combine_empty (weights : option (list Q)) :
  combine_confidence_scores [] weights
  = Ok (mkConfidenceScore (validate_confidence 0.0) ["no_scores_provided"]
          [("method", MStr "combined_confidence")]).
Proof. reflexivity. Qed.

Lemma total_repeat (x : Q) (n : nat) :
  total (repeat x n) == inject_Z (Z.of_nat n) * x.
Proof.
  induction n as [| n IH].
  - cbn. ring.
  - cbn [repeat total]. rewrite IH, Nat2Z.inj_succ, <- Z.add_1_l, inject_Z_plus.
    ring.
Qed.

Lemma equal_weights_spec (scores : list ConfidenceScore) :
  scores <> [] ->
  length (equal_weights scores) = length scores
  /\ Forall (fun w => w == 1 / count scores) (equal_weights scores)
  /\ Forall (fun w => 0 <= w) (equal_weights scores)
  /\ total (equal_weights scores) == 1.
Proof.
  intro Hne. pose proof (count_pos scores Hne) as Hn. unfold equal_weights.
  assert (E : 1.0 / count scores == 1 / count scores).
  { assert (E1 : 1.0 == 1) by reflexivity. rewrite E1. reflexivity. }
  split; [apply repeat_length | split; [| split]].
  - apply Forall_forall. intros w Hw. apply repeat_spec in Hw. subst w. exact E.
  - apply Forall_forall. intros w Hw. apply repeat_spec in Hw. subst w.
    rewrite E. apply div_nonneg; lra.
  - rewrite total_repeat, E. unfold count. field.
    intro H. unfold count in Hn. lra.
Qed.

(** ** Weighted sums between bounds *)




(** ** combine_confidence_scores: between the extremes *)







(** ** calculate_workflow_confidence *)

Lemma avg_step_confidence_ok (xs : list Q) :
  avg_step_confidence_of xs = Ok (average_of xs).
Proof.
  destruct xs as [| x xs]; [reflexivity |].
  unfold avg_step_confidence_of, average_of.
  apply div_ok. exact (count_cons_nonzero x xs).
Qed.

Lemma of_int_nonzero (n : Z) : n <> 0%Z -> ~ Py.of_int n == 0.
Proof.
  intros Hn H. unfold Py.of_int, Qeq in H. cbn [inject_Z Qnum Qden] in H. lia.
Qed.

(** With steps defined, the function is one call of the constructor. *)
Lemma workflow_nonzero (sc ts : Z) (xs : list Q) :
  ts <> 0%Z ->
  calculate_workflow_confidence sc ts xs
  = ConfidenceScore_new
      (spec_ratio sc ts * 0.6 + average_of xs * 0.4)
      (completion_factor (spec_ratio sc ts)
       :: step_confidence_factor (average_of xs))
      (workflow_metadata sc ts (spec_ratio sc ts) (average_of xs)).
Proof.
  intro Hts. unfold calculate_workflow_confidence.
  destruct (Z.eqb_spec ts 0) as [-> | _]; [congruence |].
  rewrite (div_ok _ _ (of_int_nonzero ts Hts)), avg_step_confidence_ok.
  reflexivity.
Qed.


Lemma count_cons {A : Type} (x : A) (xs : list A) :
  count (x :: xs) == 1 + count xs.
Proof.
  unfold count. cbn [length].
  rewrite Nat2Z.inj_succ, <- Z.add_1_l, inject_Z_plus. reflexivity.
Qed.


(** ** The errors of the module *)




(** The three ways [combine_confidence_scores] ends. *)
Lemma combine_cases (scores : list ConfidenceScore) (weights : option (list Q)) :
  (scores = [] /\ exists s, combine_confidence_scores scores weights = Ok s)
  \/ (scores <> []
      /\ (exists ws, weights = Some ws /\ length ws <> length scores)
      /\ combine_confidence_scores scores weights
         = Raise (ValueError mismatch_message))
  \/ (scores <> []
      /\ (forall ws, weights = Some ws -> length ws = length scores)
      /\ exists v fs md, combine_confidence_scores scores weights
                         = ConfidenceScore_new v fs md).
Proof.
  destruct scores as [| s0 scores].
  - left. split; [reflexivity |]. rewrite combine_empty. eexists. reflexivity.
  - right. assert (Hne : s0 :: scores <> []) by discriminate.
    destruct weights as [ws |].
    + destruct (Nat.eq_dec (length ws) (length (s0 :: scores))) as [Hlen | Hlen].
      * right. split; [exact Hne | split].
        -- intros ws' [= <-]. exact Hlen.
        -- rewrite (combine_matching _ ws Hne Hlen). eexists _, _, _. reflexivity.
      * left. split; [exact Hne | split].
        -- exists ws. split; [reflexivity | exact Hlen].
        -- apply combine_mismatch; assumption.
    + right. split; [exact Hne | split; [discriminate |]].
      rewrite (combine_none _ Hne).
      destruct (equal_weights_spec _ Hne) as (Hlen & _).
      rewrite (combine_matching _ _ Hne Hlen). eexists _, _, _. reflexivity.
Qed.


(** * The operations in binary64 *)

(** ** Comparisons of floats *)






(** ** The constructor *)



(** ** The parts of the combination *)













(** ** combine_confidence_scores in binary64 *)





(** ** calculate_workflow_confidence in binary64 *)






(** ** The errors of the module in binary64 *)






(** * Further properties of the scoring engine *)

(** Splits every [Py.min] and [Py.max] of the goal and of the hypotheses. *)
Ltac py_cases :=
  repeat match goal with
         | |- context [Py.min ?a ?b] =>
             let H := fresh "Hmin" in
             let E := fresh "Emin" in
             destruct (min_cases a b) as [[H E] | [H E]];
             rewrite E in *; clear E
         | |- context [Py.max ?a ?b] =>
             let H := fresh "Hmax" in
             let E := fresh "Emax" in
             destruct (max_cases a b) as [[H E] | [H E]];
             rewrite E in *; clear E
         | _ : context [Py.min ?a ?b] |- _ =>
             let H := fresh "Hmin" in
             let E := fresh "Emin" in
             destruct (min_cases a b) as [[H E] | [H E]];
             rewrite E in *; clear E
         | _ : context [Py.max ?a ?b] |- _ =>
             let H := fresh "Hmax" in
             let E := fresh "Emax" in
             destruct (max_cases a b) as [[H E] | [H E]];
             rewrite E in *; clear E
         end.

(** ** The invariant of the data model *)

Lemma new_valid (v : Q) (fs : list string) (md : Metadata) (s : ConfidenceScore) :
  ConfidenceScore_new v fs md = Ok s -> valid_score s.
Proof.
  intro H. apply new_inv in H as ([H0 H1] & Hv & _).
  unfold valid_score, in_unit. rewrite Hv. split; assumption.
Qed.

(** X1. Every score that the constructor or one of the five operations returns
    has its value in [[0, 1]]. *)
Theorem returned_scores_are_valid (s : ConfidenceScore) :
  (forall v fs md, ConfidenceScore_new v fs md = Ok s -> valid_score s)
  /\ (forall ds base,
         calculate_agent_confidence ds base = Ok s -> valid_score s)
  /\ (forall cs base,
         calculate_recovery_confidence cs base = Ok s -> valid_score s)
  /\ (forall xs base,
         calculate_validation_confidence xs base = Ok s -> valid_score s)
  /\ (forall sc ts xs,
         calculate_workflow_confidence sc ts xs = Ok s -> valid_score s)
  /\ (forall scores weights,
         combine_confidence_scores scores weights = Ok s -> valid_score s).
Proof.
  split; [| split; [| split; [| split; [| split]]]].
  - intros v fs md. apply new_valid.
  - intros ds base H. destruct ds as [| d ds].
    + exact (new_valid _ _ _ _ H).
    + destruct (agent_confidence_nonempty (d :: ds) base) as (t & md & _ & E);
        [discriminate |].
      rewrite E in H. exact (new_valid _ _ _ _ H).
  - intros cs base H. destruct cs; exact (new_valid _ _ _ _ H).
  - intros xs base H. destruct xs; exact (new_valid _ _ _ _ H).
  - intros sc ts xs H. destruct (Z.eq_dec ts 0) as [-> | Hts].
    + exact (new_valid _ _ _ _ H).
    + rewrite (workflow_nonzero sc ts xs Hts) in H. exact (new_valid _ _ _ _ H).
  - intros scores weights H.
    destruct (combine_cases scores weights)
      as [[-> _] | [(_ & _ & E) | (_ & _ & v & fs & md & E)]].
    + exact (new_valid _ _ _ _ H).
    + rewrite E in H. discriminate.
    + rewrite E in H. exact (new_valid _ _ _ _ H).
Qed.

Lemma returned_scores_are_valid_witness :
  valid_score (mkConfidenceScore (validate_confidence 0.0) ["no_steps_defined"]
                 [("method", MStr "workflow_confidence")]).
Proof.
  refine (proj1 (proj2 (proj2 (proj2 (proj2 (returned_scores_are_valid _)))))
            0%Z 0%Z [] _).
  reflexivity.
Defined.

(** ** normalize_confidence and the constructor *)

Lemma normalize_in_unit (x : Q) : in_unit (normalize_confidence x).
Proof. unfold normalize_confidence, in_unit. py_cases; lra. Qed.

(** X2. The constructor takes a value exactly when it lies in [[0, 1]], and it
    takes every value that went through [normalize_confidence], which it
    stores as it is. *)
Theorem normalized_value_is_accepted
  (x : Q) (fs : list string) (md : Metadata) :
  ((exists s, ConfidenceScore_new x fs md = Ok s) <-> in_unit x)
  /\ (exists s, ConfidenceScore_new (normalize_confidence x) fs md = Ok s
                /\ value s == normalize_confidence x
                /\ factors s = fs /\ metadata s = md).
Proof.
  split.
  - split.
    + intros (s & H). apply new_inv in H. apply H.
    + intro H. destruct (new_in_unit x fs md H) as (s & Hs & _).
      exists s. exact Hs.
  - apply new_in_unit. apply normalize_in_unit.
Qed.

Lemma normalized_value_is_accepted_witness :
  exists s, ConfidenceScore_new 0.25 [] [] = Ok s.
Proof.
  apply (proj1 (normalized_value_is_accepted 0.25 [] [])).
  split; vm_compute; discriminate.
Defined.

(** X3. [normalize_confidence] keeps the order of its inputs. *)
Theorem normalize_confidence_monotone (x y : Q) :
  x <= y -> normalize_confidence x <= normalize_confidence y.
Proof.
  intro Hxy. unfold normalize_confidence. py_cases; lra.
Qed.

Lemma normalize_confidence_monotone_witness :
  normalize_confidence 0.25 <= normalize_confidence 1.5.
Proof.
  apply normalize_confidence_monotone. vm_compute. discriminate.
Defined.

(** ** calculate_recovery_confidence: more changes, more confidence, up to
    a cap *)

Lemma count_le {A B : Type} (xs : list A) (ys : list B) :
  (length xs <= length ys)%nat -> count xs <= count ys.
Proof.
  intro H. unfold count. rewrite <- Zle_Qle. lia.
Qed.

Lemma count_ge {A : Type} (xs : list A) (n : nat) :
  (n <= length xs)%nat -> inject_Z (Z.of_nat n) <= count xs.
Proof.
  intro H. unfold count. rewrite <- Zle_Qle. lia.
Qed.

(** The value of a recovery, in the terms of the source. *)
Lemma recovery_value (cs : list string) (base : Q) :
  in_unit base -> cs <> [] ->
  exists s, calculate_recovery_confidence cs base = Ok s
            /\ value s == Py.min 0.9 (base + Py.min 0.4 (count cs * 0.1)).
Proof.
  intros [Hb0 Hb1] Hne. destruct cs as [| c cs]; [congruence |].
  pose proof (count_cons_pos c cs) as Hn.
  unfold calculate_recovery_confidence. rewrite !count_eq in *.
  set (n := count (c :: cs)) in *.
  match goal with
  | |- exists s, ConfidenceScore_new ?v ?fs ?md = _ /\ _ =>
      destruct (new_in_unit v fs md) as (s & Hs & Hv & _)
  end.
  - unfold in_unit. py_cases; lra.
  - exists s. split; assumption.
Qed.

(** X4. With a base confidence of the interval, a recovery with changes never
    exceeds [0.9]; a longer list of changes never gives a lower value; and
    from four changes on the value is [min(0.9, base + 0.4)], whatever the
    number of changes. *)
Theorem recovery_monotone_and_capped (base : Q) (cs cs' : list string) :
  in_unit base -> cs <> [] -> (length cs <= length cs')%nat ->
  exists s s',
    calculate_recovery_confidence cs base = Ok s
    /\ calculate_recovery_confidence cs' base = Ok s'
    /\ value s <= value s'
    /\ value s' <= 0.9
    /\ ((4 <= length cs)%nat ->
        value s == Qmin 0.9 (base + 0.4) /\ value s' == value s).
Proof.
  intros Hb Hne Hlen.
  assert (Hne' : cs' <> []).
  { destruct cs'; [| discriminate]. destruct cs; [congruence | cbn in Hlen; lia]. }
  destruct (recovery_value cs base Hb Hne) as (s & Hs & Hv).
  destruct (recovery_value cs' base Hb Hne') as (s' & Hs' & Hv').
  pose proof (count_le cs cs' Hlen) as Hc.
  exists s, s'. split; [exact Hs | split; [exact Hs' |]].
  rewrite Hv, Hv'. split; [| split].
  - py_cases; lra.
  - py_cases; lra.
  - intro H4. apply (count_ge cs 4) in H4. cbn in H4.
    assert (H4' : 4 <= count cs) by exact H4.
    rewrite <- min_is_Qmin. split; py_cases; lra.
Qed.

Lemma recovery_monotone_and_capped_witness :
  exists s s',
    calculate_recovery_confidence ["a"] 0.5 = Ok s
    /\ calculate_recovery_confidence ["a"; "b"] 0.5 = Ok s'
    /\ value s <= value s'.
Proof.
  destruct (recovery_monotone_and_capped 0.5 ["a"] ["a"; "b"])
    as (s & s' & Hs & Hs' & Hle & _).
  - split; vm_compute; discriminate.
  - discriminate.
  - cbn. lia.
  - exists s, s'. auto.
Defined.

(** X5. A base confidence above [0.9] is lowered by successful changes: without
    changes the base comes back, with changes [0.9] does. *)
Theorem recovery_lowers_a_high_base (base : Q) (cs : list string) :
  0.9 < base -> base <= 1 -> cs <> [] ->
  exists s0 s,
    calculate_recovery_confidence [] base = Ok s0
    /\ calculate_recovery_confidence cs base = Ok s
    /\ value s0 == base
    /\ value s == 0.9
    /\ value s < value s0.
Proof.
  intros Hhi H1 Hne.
  assert (Hb : in_unit base) by (unfold in_unit; split; lra).
  destruct (recovery_value cs base Hb Hne) as (s & Hs & Hv).
  destruct (new_in_unit base ["no_changes_made"]
              [("method", MStr "recovery_confidence");
               ("base_confidence", MFloat base)] Hb) as (s0 & Hs0 & Hv0 & _).
  pose proof (count_pos cs Hne) as Hn.
  exists s0, s. split; [exact Hs0 | split; [exact Hs | split; [exact Hv0 |]]].
  rewrite Hv, Hv0. split; py_cases; lra.
Qed.

Lemma recovery_lowers_a_high_base_witness :
  exists s0 s,
    calculate_recovery_confidence [] 1.0 = Ok s0
    /\ calculate_recovery_confidence ["fix"] 1.0 = Ok s
    /\ value s < value s0.
Proof.
  destruct (recovery_lowers_a_high_base 1.0 ["fix"])
    as (s0 & s & H0 & H & _ & _ & Hlt).
  - reflexivity.
  - vm_compute. discriminate.
  - discriminate.
  - exists s0, s. auto.
Defined.

(** ** calculate_validation_confidence: more issues, less confidence, down
    to a floor *)

Lemma validation_value (xs : list string) (base : Q) :
  in_unit base -> xs <> [] ->
  exists s, calculate_validation_confidence xs base = Ok s
            /\ value s == Py.max 0.1 (base - Py.min 0.8 (count xs * 0.1)).
Proof.
  intros [Hb0 Hb1] Hne. destruct xs as [| x xs]; [congruence |].
  pose proof (count_cons_pos x xs) as Hn.
  unfold calculate_validation_confidence. rewrite !count_eq in *.
  set (n := count (x :: xs)) in *.
  match goal with
  | |- exists s, ConfidenceScore_new ?v ?fs ?md = _ /\ _ =>
      destruct (new_in_unit v fs md) as (s & Hs & Hv & _)
  end.
  - unfold in_unit. py_cases; lra.
  - exists s. split; assumption.
Qed.

(** X6. With a base confidence of the interval, a validation with issues never
    goes below [0.1]; a longer list of issues never gives a higher value;
    and from eight issues on the value is [max(0.1, base - 0.8)], whatever
    the number of issues. *)
Theorem validation_monotone_and_floored (base : Q) (xs xs' : list string) :
  in_unit base -> xs <> [] -> (length xs <= length xs')%nat ->
  exists s s',
    calculate_validation_confidence xs base = Ok s
    /\ calculate_validation_confidence xs' base = Ok s'
    /\ value s' <= value s
    /\ 0.1 <= value s'
    /\ ((8 <= length xs)%nat ->
        value s == Qmax 0.1 (base - 0.8) /\ value s' == value s).
Proof.
  intros Hb Hne Hlen.
  assert (Hne' : xs' <> []).
  { destruct xs'; [| discriminate]. destruct xs; [congruence | cbn in Hlen; lia]. }
  destruct (validation_value xs base Hb Hne) as (s & Hs & Hv).
  destruct (validation_value xs' base Hb Hne') as (s' & Hs' & Hv').
  pose proof (count_le xs xs' Hlen) as Hc.
  exists s, s'. split; [exact Hs | split; [exact Hs' |]].
  rewrite Hv, Hv'. split; [| split].
  - py_cases; lra.
  - py_cases; lra.
  - intro H8. apply (count_ge xs 8) in H8. cbn in H8.
    assert (H8' : 8 <= count xs) by exact H8.
    rewrite <- max_is_Qmax. split; py_cases; lra.
Qed.

Lemma validation_monotone_and_floored_witness :
  exists s s',
    calculate_validation_confidence ["a"] 0.9 = Ok s
    /\ calculate_validation_confidence ["a"; "b"] 0.9 = Ok s'
    /\ value s' <= value s.
Proof.
  destruct (validation_monotone_and_floored 0.9 ["a"] ["a"; "b"])
    as (s & s' & Hs & Hs' & Hle & _).
  - split; vm_compute; discriminate.
  - discriminate.
  - cbn. lia.
  - exists s, s'. auto.
Defined.

(** X7. A base confidence below [0.1] is raised by issues: without issues the
    base comes back, with issues [0.1] does. *)
Theorem validation_raises_a_low_base (base : Q) (xs : list string) :
  0 <= base -> base < 0.1 -> xs <> [] ->
  exists s0 s,
    calculate_validation_confidence [] base = Ok s0
    /\ calculate_validation_confidence xs base = Ok s
    /\ value s0 == base
    /\ value s == 0.1
    /\ value s0 < value s.
Proof.
  intros H0 Hlo Hne.
  assert (Hb : in_unit base) by (unfold in_unit; split; lra).
  destruct (validation_value xs base Hb Hne) as (s & Hs & Hv).
  destruct (new_in_unit base ["no_issues_found"]
              [("method", MStr "validation_confidence");
               ("base_confidence", MFloat base)] Hb) as (s0 & Hs0 & Hv0 & _).
  pose proof (count_pos xs Hne) as Hn.
  exists s0, s. split; [exact Hs0 | split; [exact Hs | split; [exact Hv0 |]]].
  rewrite Hv, Hv0. split; py_cases; lra.
Qed.

Lemma validation_raises_a_low_base_witness :
  exists s0 s,
    calculate_validation_confidence [] 0.05 = Ok s0
    /\ calculate_validation_confidence ["issue"] 0.05 = Ok s
    /\ value s0 < value s.
Proof.
  destruct (validation_raises_a_low_base 0.05 ["issue"])
    as (s0 & s & H0 & H & _ & _ & Hlt).
  - vm_compute. discriminate.
  - reflexivity.
  - discriminate.
  - exists s0, s. auto.
Defined.

(** ** calculate_agent_confidence: well-formed findings *)

Lemma agent_confidence_nonempty_md (ds : list Delusion) (base : Q) :
  ds <> [] ->
  exists t : Q,
    t == total (map spec_adjusted ds)
    /\ calculate_agent_confidence ds base
       = ConfidenceScore_new (Py.min (t / count ds) 1.0)
           (map (fun d => spec_factor (spec_tag d)) ds)
           [("method", MStr "agent_confidence");
            ("delusion_count", MInt (Py.len ds));
            ("average_delusion_confidence", MFloat (t / count ds))].
Proof.
  intro Hne. destruct ds as [| d ds]; [congruence |].
  unfold calculate_agent_confidence.
  destruct (agent_loop_spec (d :: ds) 0.0 []) as [Ht Hf].
  destruct (fold_left agent_loop_body (d :: ds) (0.0, [])) as [t fs].
  cbn [fst snd] in Ht, Hf. cbn [app] in Hf. subst fs.
  rewrite (div_ok t _ (count_cons_nonzero d ds)). cbn [bind].
  exists t. split; [| reflexivity].
  rewrite Ht. assert (E : 0.0 == 0) by reflexivity. rewrite E. ring.
Qed.

Lemma spec_multiplier_bounds (tag : string) :
  0 <= spec_multiplier tag /\ spec_multiplier tag <= 1.2.
Proof.
  unfold spec_multiplier.
  destruct (String.eqb tag "high"); [| destruct (String.eqb tag "low")];
    split; vm_compute; discriminate.
Qed.

Lemma spec_adjusted_bounds (d : Delusion) :
  in_unit (spec_confidence d) ->
  0 <= spec_adjusted d /\ spec_adjusted d <= 1.2.
Proof.
  intros [H0 H1]. unfold spec_adjusted.
  destruct (spec_multiplier_bounds (spec_tag d)) as [M0 M1].
  set (c := spec_confidence d) in *. set (m := spec_multiplier (spec_tag d)) in *.
  split.
  - apply Qmult_le_0_compat; assumption.
  - assert (H : c * m <= 1 * m) by (apply Qmult_le_compat_r; assumption).
    lra.
Qed.

Lemma total_adjusted_bounds (ds : list Delusion) :
  Forall (fun d => in_unit (spec_confidence d)) ds ->
  0 <= total (map spec_adjusted ds)
  /\ total (map spec_adjusted ds) <= 1.2 * count ds.
Proof.
  induction 1 as [| d ds Hd _ [IH0 IH1]].
  - split; vm_compute; discriminate.
  - cbn [map total]. pose proof (count_cons d ds) as Hc.
    destruct (spec_adjusted_bounds d Hd) as [A0 A1]. split; lra.
Qed.

(** X9. Findings whose confidences lie in [[0, 1]] always give a score. Its
    metadata hold the number of findings and their adjusted average before
    clipping; the value is that average clipped at [1.0]. *)
Theorem agent_confidence_of_valid_findings (ds : list Delusion) (base : Q) :
  ds <> [] ->
  Forall (fun d => in_unit (spec_confidence d)) ds ->
  exists s a,
    calculate_agent_confidence ds base = Ok s
    /\ meta_get "delusion_count" (metadata s)
       = Some (MInt (Z.of_nat (length ds)))
    /\ meta_get "average_delusion_confidence" (metadata s) = Some (MFloat a)
    /\ a == total (map spec_adjusted ds) / count ds
    /\ 0 <= a
    /\ value s == Qmin a 1.
Proof.
  intros Hne Hds.
  destruct (agent_confidence_nonempty_md ds base Hne) as (t & Ht & ->).
  destruct (total_adjusted_bounds ds Hds) as [T0 T1].
  pose proof (count_pos ds Hne) as Hn.
  assert (A0 : 0 <= t / count ds).
  { apply div_nonneg; [rewrite Ht; exact T0 | exact Hn]. }
  match goal with
  | |- exists s a, ConfidenceScore_new ?v ?fs ?m = _ /\ _ =>
      destruct (new_in_unit v fs m) as (s & Hs & Hv & _ & Hmd)
  end.
  - unfold in_unit. py_cases; lra.
  - exists s, (t / count ds).
    split; [exact Hs |]. rewrite Hmd.
    split; [reflexivity | split; [reflexivity | split]].
    + rewrite Ht. reflexivity.
    + split; [exact A0 |].
      rewrite Hv, min_is_Qmin.
      apply Q.min_compat; [reflexivity | vm_compute; reflexivity].
Qed.

Lemma agent_confidence_of_valid_findings_witness :
  exists s, calculate_agent_confidence
              [mkDelusion (Some 1.0) (Some "high"); mkDelusion None None] 0.9
            = Ok s.
Proof.
  destruct (agent_confidence_of_valid_findings
              [mkDelusion (Some 1.0) (Some "high"); mkDelusion None None] 0.9)
    as (s & a & Hs & _).
  - discriminate.
  - repeat constructor; vm_compute; discriminate.
  - exists s. exact Hs.
Defined.

(** ** combine_confidence_scores: the audit trail *)

Lemma weighted_total_is_dot (scores : list ConfidenceScore) (us : list Q) :
  weighted_total scores us = dot (map value scores) us.
Proof.
  revert us. induction scores as [| s scores IH]; intros [| u us];
    cbn [weighted_total dot map]; try reflexivity.
  rewrite IH. reflexivity.
Qed.

(** X13. The metadata of a combined score are enough to recompute it: they hold
    the number of scores, their values and the weights that were used, and
    the value is the sum of the products of the last two. *)
Theorem combined_score_can_be_audited
  (scores : list ConfidenceScore) (weights : option (list Q))
  (s : ConfidenceScore) :
  scores <> [] ->
  combine_confidence_scores scores weights = Ok s ->
  exists us,
    meta_get "score_count" (metadata s) = Some (MInt (Z.of_nat (length scores)))
    /\ meta_get "individual_scores" (metadata s)
       = Some (MFloats (map value scores))
    /\ meta_get "weights" (metadata s) = Some (MFloats us)
    /\ length us = length scores
    /\ value s == dot (map value scores) us.
Proof.
  intros Hne Hs.
  assert (Hsome : exists ws,
             combine_confidence_scores scores (Some ws) = Ok s
             /\ length ws = length scores).
  { destruct weights as [ws |].
    - exists ws. split; [exact Hs |].
      destruct (Nat.eq_dec (length ws) (length scores)) as [E | E]; [exact E |].
      rewrite (combine_mismatch scores ws Hne E) in Hs. discriminate.
    - exists (equal_weights scores). rewrite <- (combine_none scores Hne).
      split; [exact Hs | apply (equal_weights_spec scores Hne)]. }
  destruct Hsome as (ws & Hs' & Hlen).
  rewrite (combine_matching scores ws Hne Hlen) in Hs'.
  apply new_inv in Hs' as (_ & Hv & _ & Hmd).
  exists (normalized ws). rewrite Hmd.
  split; [reflexivity | split; [reflexivity | split; [reflexivity | split]]].
  - rewrite normalized_length. exact Hlen.
  - rewrite Hv, weighted_sum_is_weighted_total, weighted_total_is_dot.
    reflexivity.
Qed.

Lemma combined_score_can_be_audited_witness :
  exists s us,
    combine_confidence_scores example_scores None = Ok s
    /\ meta_get "weights" (metadata s) = Some (MFloats us)
    /\ value s == dot (map value example_scores) us.
Proof.
  destruct (combine_confidence_scores example_scores None) as [s | e] eqn:E;
    [| vm_compute in E; discriminate].
  destruct (combined_score_can_be_audited example_scores None s)
    as (us & _ & _ & Hw & _ & Hv).
  - discriminate.
  - exact E.
  - exists s, us. auto.
Defined.

(** ** calculate_workflow_confidence: the tiers in terms of the steps *)

Lemma inject_pos (n : Z) : (0 < n)%Z -> 0 < inject_Z n.
Proof. intro H. change 0 with (inject_Z 0). rewrite <- Zlt_Qlt. exact H. Qed.

Lemma ratio_times (sc ts : Z) :
  (0 < ts)%Z -> spec_ratio sc ts * inject_Z ts == inject_Z sc.
Proof.
  intro H. unfold spec_ratio. field.
  pose proof (inject_pos ts H). lra.
Qed.

Lemma ratio_le_iff (sc ts : Z) (q : Q) :
  (0 < ts)%Z -> (spec_ratio sc ts <= q <-> inject_Z sc <= q * inject_Z ts).
Proof.
  intro H. rewrite <- (ratio_times sc ts H).
  symmetry. apply Qmult_le_r. apply inject_pos. exact H.
Qed.





(** X15. For a positive number of steps and the same step confidences, more
    completed steps never give a lower value. *)
Theorem workflow_monotone_in_steps
  (sc sc' ts : Z) (xs : list Q) (s s' : ConfidenceScore) :
  (0 < ts)%Z -> (sc <= sc')%Z ->
  calculate_workflow_confidence sc ts xs = Ok s ->
  calculate_workflow_confidence sc' ts xs = Ok s' ->
  value s <= value s'.
Proof.
  intros Hts Hle Hs Hs'.
  assert (Hnz : ts <> 0%Z) by lia.
  rewrite (workflow_nonzero sc ts xs Hnz) in Hs.
  rewrite (workflow_nonzero sc' ts xs Hnz) in Hs'.
  apply new_inv in Hs as (_ & Hv & _). apply new_inv in Hs' as (_ & Hv' & _).
  rewrite Hv, Hv'.
  assert (Hr : spec_ratio sc ts <= spec_ratio sc' ts).
  { apply (ratio_le_iff sc ts _ Hts). rewrite (ratio_times sc' ts Hts).
    rewrite <- Zle_Qle. exact Hle. }
  lra.
Qed.

Lemma workflow_monotone_in_steps_witness :
  exists s s',
    calculate_workflow_confidence 1 5 [0.5] = Ok s
    /\ calculate_workflow_confidence 4 5 [0.5] = Ok s'
    /\ value s <= value s'.
Proof.
  destruct (calculate_workflow_confidence 1 5 [0.5]) as [s | e] eqn:E;
    [| vm_compute in E; discriminate].
  destruct (calculate_workflow_confidence 4 5 [0.5]) as [s' | e'] eqn:E';
    [| vm_compute in E'; discriminate].
  exists s, s'. split; [reflexivity | split; [reflexivity |]].
  apply (workflow_monotone_in_steps 1 4 5 [0.5] s s');
    [reflexivity | discriminate | exact E | exact E'].
Defined.

(** * The validation utilities *)

(** ** The matcher and the meaning of a pattern *)

Lemma match_at_least_spec
  (cls : ascii -> bool) (k : string -> bool) (min : nat) (s : string) :
  Re.match_at_least cls k min s = true
  <-> exists p r, s = (p ++ r)%string
                  /\ Re.all_chars cls p = true
                  /\ (min <= String.length p)%nat
                  /\ k r = true.
Proof.
  revert min. induction s as [| c s IH]; intro min; cbn [Re.match_at_least].
  - rewrite andb_true_iff, Nat.eqb_eq. split.
    + intros [-> Hk]. exists EmptyString, EmptyString. cbn. auto.
    + intros (p & r & E & _ & Hmin & Hk).
      destruct p; [| discriminate]. cbn in E. subst r. cbn in Hmin.
      split; [lia | exact Hk].
  - destruct (cls c) eqn:Hc.
    + rewrite orb_true_iff, andb_true_iff, Nat.eqb_eq, IH. split.
      * intros [(p & r & -> & Hp & Hmin & Hk) | [-> Hk]].
        -- exists (String c p), r. cbn. rewrite Hc, Hp.
           repeat split; [lia | exact Hk].
        -- exists EmptyString, (String c s). cbn. auto.
      * intros (p & r & E & Hp & Hmin & Hk). destruct p as [| c' p].
        -- right. cbn in E, Hmin. subst r. split; [lia | exact Hk].
        -- left. cbn in E, Hp, Hmin. injection E as <- ->.
           apply andb_true_iff in Hp as [_ Hp].
           exists p, r. repeat split; [exact Hp | lia | exact Hk].
    + rewrite andb_true_iff, Nat.eqb_eq. split.
      * intros [-> Hk]. exists EmptyString, (String c s). cbn. auto.
      * intros (p & r & E & Hp & Hmin & Hk). destruct p as [| c' p].
        -- cbn in E, Hmin. subst r. split; [lia | exact Hk].
        -- cbn in E, Hp. injection E as <- ->. rewrite Hc in Hp. discriminate.
Qed.

(** The matcher accepts exactly the strings the pattern stands for. *)
Lemma match_items_spec
  (items : list Re.item) (at_end : string -> bool) (s : string) :
  Re.match_items items at_end s = true <-> Re.denotes items at_end s.
Proof.
  revert s. induction items as [| [cls | min cls] rest IH]; intro s;
    cbn [Re.match_items Re.denotes].
  - reflexivity.
  - destruct s as [| c s'].
    + split; [discriminate | intros (c & s' & E & _); discriminate].
    + rewrite andb_true_iff, IH. split.
      * intros [Hc Hr]. exists c, s'. auto.
      * intros (c' & s'' & E & Hc & Hr). injection E as <- <-. auto.
    - rewrite match_at_least_spec. split.
      + intros (p & r & E & Hp & Hmin & Hk). exists p, r.
        rewrite <- IH. auto.
      + intros (p & r & E & Hp & Hmin & Hk). exists p, r.
        rewrite IH. auto.
Qed.

Lemma dollar_spec (s : string) :
  Re.dollar s = true <-> s = EmptyString \/ s = Re.newline.
Proof.
  unfold Re.dollar, Re.newline. destruct s as [| c [| c' s]].
  - split; auto.
  - split.
    + intro H. apply Ascii.eqb_eq in H. subst c. auto.
    + intros [H | H]; [discriminate |]. injection H as ->. reflexivity.
  - split; [discriminate | intros [H | H]; discriminate].
Qed.

(** ** validate_email *)

(** X16. An address is accepted exactly when it reads
    [local @ domain . tld], then nothing or one newline, with a non-empty
    local part of letters, digits and [._%+-], a non-empty domain of
    letters, digits, dots and hyphens, and a last label of at least two
    letters. *)
Theorem validate_email_spec (email : string) :
  ValidationUtils.validate_email email = true
  <-> exists local domain tld ending,
        email = (local ++ "@" ++ domain ++ "." ++ tld ++ ending)%string
        /\ (1 <= String.length local)%nat
        /\ Re.all_chars ValidationUtils.local_char local = true
        /\ (1 <= String.length domain)%nat
        /\ Re.all_chars ValidationUtils.domain_char domain = true
        /\ (2 <= String.length tld)%nat
        /\ Re.all_chars ValidationUtils.letter tld = true
        /\ (ending = EmptyString \/ ending = Re.newline).
Proof.
  unfold ValidationUtils.validate_email, Re.matches.
  rewrite match_items_spec. unfold ValidationUtils.email_pattern.
  cbn [Re.denotes]. split.
  - intros (local & r1 & -> & Hl & Hln & c1 & r2 & -> & Hc1 & domain & r3 & ->
            & Hd & Hdn & c2 & r4 & -> & Hc2 & tld & ending & -> & Ht & Htn & He).
    apply Ascii.eqb_eq in Hc1, Hc2. subst c1 c2. apply dollar_spec in He.
    exists local, domain, tld, ending. cbn. auto 10.
  - intros (local & domain & tld & ending & -> & Hln & Hl & Hdn & Hd & Htn & Ht
            & He).
    exists local, ("@" ++ domain ++ "." ++ tld ++ ending)%string.
    split; [reflexivity | split; [exact Hl | split; [exact Hln |]]].
    exists "@"%char, (domain ++ "." ++ tld ++ ending)%string.
    split; [reflexivity | split; [reflexivity |]].
    exists domain, ("." ++ tld ++ ending)%string.
    split; [reflexivity | split; [exact Hd | split; [exact Hdn |]]].
    exists "."%char, (tld ++ ending)%string.
    split; [reflexivity | split; [reflexivity |]].
    exists tld, ending.
    split; [reflexivity | split; [exact Ht | split; [exact Htn |]]].
    apply dollar_spec. exact He.
Qed.

Lemma validate_email_spec_witness :
  ValidationUtils.validate_email "a@b.co" = true.
Proof.
  apply (proj2 (validate_email_spec "a@b.co")).
  exists "a"%string, "b"%string, "co"%string, EmptyString.
  repeat split; cbn; auto.
Defined.

Lemma string_app_assoc (a b c : string) :
  ((a ++ b) ++ c = a ++ (b ++ c))%string.
Proof.
  induction a as [| x a IH]; cbn; [reflexivity |]. rewrite IH. reflexivity.
Qed.

Lemma occurrences_app (c : ascii) (s t : string) :
  Re.occurrences c (s ++ t)
  = (Re.occurrences c s + Re.occurrences c t)%nat.
Proof.
  induction s as [| c' s IH]; cbn; [reflexivity |]. rewrite IH. lia.
Qed.

Lemma all_chars_exclude (cls : ascii -> bool) (c : ascii) (s : string) :
  Re.all_chars cls s = true -> cls c = false -> Re.occurrences c s = O.
Proof.
  intros Hs Hc. induction s as [| c' s IH]; cbn in *; [reflexivity |].
  apply andb_true_iff in Hs as [Hc' Hs].
  destruct (Ascii.eqb_spec c c') as [-> | _]; [congruence |].
  rewrite (IH Hs). reflexivity.
Qed.

Lemma ending_occurrences (c : ascii) (ending : string) :
  ending = EmptyString \/ ending = Re.newline ->
  c <> "010"%char -> Re.occurrences c ending = O.
Proof.
  intros [-> | ->] Hc; cbn; [reflexivity |].
  destruct (Ascii.eqb_spec c "010"); [contradiction | reflexivity].
Qed.

(** X17. An accepted address holds exactly one [@] and no blank. *)
Theorem accepted_email_has_one_at (email : string) :
  ValidationUtils.validate_email email = true ->
  Re.occurrences "@" email = 1%nat /\ Re.occurrences " " email = O.
Proof.
  intro H. apply validate_email_spec in H
    as (local & domain & tld & ending & -> & _ & Hl & _ & Hd & _ & Ht & He).
  rewrite !occurrences_app.
  rewrite (all_chars_exclude _ "@" _ Hl), (all_chars_exclude _ "@" _ Hd),
    (all_chars_exclude _ "@" _ Ht), (ending_occurrences "@" _ He);
    try reflexivity; try discriminate.
  rewrite (all_chars_exclude _ " " _ Hl), (all_chars_exclude _ " " _ Hd),
    (all_chars_exclude _ " " _ Ht), (ending_occurrences " " _ He);
    try reflexivity; try discriminate.
  split; reflexivity.
Qed.

Lemma accepted_email_has_one_at_witness :
  Re.occurrences "@" "user@example.com" = 1%nat.
Proof.
  refine (proj1 (accepted_email_has_one_at "user@example.com" _)).
  reflexivity.
Defined.

(** X18. An accepted address without a newline is still accepted with one
    newline after it: [$] also matches before a newline that ends the
    string. *)
Theorem accepted_email_tolerates_newline (email : string) :
  ValidationUtils.validate_email email = true ->
  Re.occurrences "010" email = O ->
  ValidationUtils.validate_email (email ++ Re.newline) = true.
Proof.
  intros H Hnl. apply validate_email_spec in H
    as (local & domain & tld & ending & -> & Hln & Hl & Hdn & Hd & Htn & Ht & He).
  destruct He as [-> | ->].
  - apply validate_email_spec.
    exists local, domain, tld, Re.newline.
    split; [| auto 10].
    rewrite !string_app_assoc. reflexivity.
  - rewrite !occurrences_app in Hnl. cbn in Hnl. lia.
Qed.

Lemma accepted_email_tolerates_newline_witness :
  ValidationUtils.validate_email ("user@example.com" ++ Re.newline) = true.
Proof.
  apply accepted_email_tolerates_newline; reflexivity.
Defined.

(** ** validate_required_fields *)

Lemma required_loop_spec (data : Dict) (fields : list string) (acc : list string) :
  fold_left (ValidationUtils.required_loop_body data) fields acc
  = acc ++ map (fun f => ("Missing required field: " ++ f)%string)
             (filter (ValidationUtils.is_missing data) fields).
Proof.
  revert acc. induction fields as [| f fields IH]; intro acc; cbn [fold_left filter].
  - cbn. symmetry. apply app_nil_r.
  - rewrite IH. unfold ValidationUtils.required_loop_body.
    destruct (ValidationUtils.is_missing data f); [| reflexivity].
    cbn [map]. rewrite <- app_assoc. reflexivity.
Qed.

Lemma is_missing_false_iff (data : Dict) (f : string) :
  ValidationUtils.is_missing data f = false
  <-> exists v, dict_lookup f data = Some v /\ v <> PNone.
Proof.
  unfold ValidationUtils.is_missing. destruct (dict_lookup f data) as [v |].
  - split.
    + intro H. exists v. split; [reflexivity |]. intros ->. discriminate.
    + intros (v' & [= <-] & Hv). destruct v; try reflexivity. congruence.
  - split; [discriminate | intros (v & H & _); discriminate].
Qed.

(** X19. No error is reported exactly when every required field is a key of the
    data with a value other than [None]; keys that are not required play no
    part. *)
Theorem no_error_iff_all_fields_present (data : Dict) (fields : list string) :
  ValidationUtils.validate_required_fields data fields = []
  <-> forall f, In f fields ->
                exists v, dict_lookup f data = Some v /\ v <> PNone.
Proof.
  unfold ValidationUtils.validate_required_fields.
  rewrite required_loop_spec. cbn [app]. split.
  - intros H f Hf. apply is_missing_false_iff.
    destruct (ValidationUtils.is_missing data f) eqn:E; [| reflexivity].
    assert (Hin : In f (filter (ValidationUtils.is_missing data) fields))
      by (apply filter_In; auto).
    apply map_eq_nil in H. rewrite H in Hin. contradiction.
  - intro H. induction fields as [| f fields IH]; [reflexivity |].
    cbn [filter].
    rewrite (proj2 (is_missing_false_iff data f) (H f (or_introl eq_refl))).
    apply IH. intros g Hg. apply H. right. exact Hg.
Qed.

Lemma no_error_iff_all_fields_present_witness :
  ValidationUtils.validate_required_fields
    [("name", PStr "x"); ("extra", PNone)] ["name"] = [].
Proof.
  apply (proj2 (no_error_iff_all_fields_present
                  [("name", PStr "x"); ("extra", PNone)] ["name"])).
  intros f [<- | []]. exists (PStr "x"). split; [reflexivity | discriminate].
Defined.

(** X20. The errors are one message per required field that is absent or bound to
    [None], in the order of the required fields and as often as a field is
    repeated there. *)
Theorem errors_list_missing_fields (data : Dict) (fields : list string) :
  ValidationUtils.validate_required_fields data fields
  = map (fun f => ("Missing required field: " ++ f)%string)
        (filter (ValidationUtils.is_missing data) fields)
  /\ (length (ValidationUtils.validate_required_fields data fields)
      <= length fields)%nat
  /\ (forall f, In f fields -> dict_lookup f data = Some PNone ->
                In ("Missing required field: " ++ f)%string
                   (ValidationUtils.validate_required_fields data fields))
  /\ (forall f, In f fields -> dict_lookup f data = None ->
                In ("Missing required field: " ++ f)%string
                   (ValidationUtils.validate_required_fields data fields)).
Proof.
  unfold ValidationUtils.validate_required_fields.
  rewrite required_loop_spec. cbn [app].
  split; [reflexivity | split; [| split]].
  - rewrite length_map. apply filter_length_le.
  - intros f Hf Hv. apply in_map. apply filter_In. split; [exact Hf |].
    unfold ValidationUtils.is_missing. rewrite Hv. reflexivity.
  - intros f Hf Hv. apply in_map. apply filter_In. split; [exact Hf |].
    unfold ValidationUtils.is_missing. rewrite Hv. reflexivity.
Qed.

Lemma errors_list_missing_fields_witness :
  In "Missing required field: b"%string
     (ValidationUtils.validate_required_fields [("a", PInt 1); ("b", PNone)]
        ["a"; "b"]).
Proof.
  apply (proj1 (proj2 (proj2 (errors_list_missing_fields
                                [("a", PInt 1); ("b", PNone)] ["a"; "b"])))).
  - cbn. auto.
  - reflexivity.
Defined.

(** ** validate_string_length *)

(** X21. A value passes exactly when it is a string whose length is at least the
    minimum and, if there is a maximum, at most the maximum; so nothing
    passes when the maximum is below the minimum, and every string passes on
    the defaults. *)
Theorem validate_string_length_spec
  (value : pyval) (min_length : Z) (max_length : option Z) :
  (ValidationUtils.validate_string_length value min_length max_length = true
   <-> exists s, value = PStr s
                 /\ (min_length <= str_len s)%Z
                 /\ (forall m, max_length = Some m -> (str_len s <= m)%Z))
  /\ (forall m, max_length = Some m -> (m < min_length)%Z ->
                ValidationUtils.validate_string_length value min_length
                  max_length = false)
  /\ (forall s, ValidationUtils.validate_string_length (PStr s) 0 None = true).
Proof.
  assert (Hiff :
    ValidationUtils.validate_string_length value min_length max_length = true
    <-> exists s, value = PStr s
                  /\ (min_length <= str_len s)%Z
                  /\ (forall m, max_length = Some m -> (str_len s <= m)%Z)).
  { unfold ValidationUtils.validate_string_length. split.
    - destruct value as [| | | | s |]; try discriminate.
      destruct (Z.ltb_spec (str_len s) min_length) as [| Hmin]; [discriminate |].
      destruct max_length as [m |].
      + destruct (Z.ltb_spec m (str_len s)) as [| Hmax]; [discriminate |].
        intros _. exists s. split; [reflexivity | split; [exact Hmin |]].
        intros m' [= <-]. exact Hmax.
      + intros _. exists s. split; [reflexivity | split; [exact Hmin |]].
        discriminate.
    - intros (s & -> & Hmin & Hmax).
      destruct (Z.ltb_spec (str_len s) min_length) as [| _]; [lia |].
      destruct max_length as [m |]; [| reflexivity].
      specialize (Hmax m eq_refl).
      destruct (Z.ltb_spec m (str_len s)); [lia | reflexivity]. }
  split; [exact Hiff | split].
  - intros m -> Hlt. apply not_true_is_false. intro E.
    apply Hiff in E as (s & _ & Hmin & Hmax). specialize (Hmax m eq_refl). lia.
  - intro s. unfold ValidationUtils.validate_string_length.
    destruct (Z.ltb_spec (str_len s) 0) as [H |]; [| reflexivity].
    unfold str_len in H. lia.
Qed.

Lemma validate_string_length_spec_witness :
  ValidationUtils.validate_string_length (PStr "abc") 5 (Some 2%Z) = false.
Proof.
  apply (proj1 (proj2 (validate_string_length_spec (PStr "abc") 5 (Some 2%Z)))
           2%Z); reflexivity.
Defined.

(** * The configuration manager *)

(** X22. Without a type hint and without [required], [get] returns the
    environment variable, as a string, when it is set and the default
    otherwise; the configuration file and the values stored with [set] play
    no part. *)
Theorem get_reads_environment_then_default
  (self : ConfigManager.t) (env : ConfigManager.Env) (key : string)
  (default : pyval) :
  ConfigManager.get self env key default false None
  = Returns match ConfigManager.getenv env key with
            | Some v => PStr v
            | None => default
            end
  /\ (forall k v,
         ConfigManager.get (ConfigManager.set self k v) env key default false
           None
         = ConfigManager.get self env key default false None)
  /\ (forall file,
         ConfigManager.get (ConfigManager.init file) env key default false None
         = ConfigManager.get self env key default false None).
Proof.
  assert (H : forall self',
             ConfigManager.get self' env key default false None
             = Returns match ConfigManager.getenv env key with
                       | Some v => PStr v
                       | None => default
                       end).
  { intro self'. unfold ConfigManager.get, ConfigManager._get_from_file.
    destruct (ConfigManager.getenv env key) as [v |]; cbn.
    - reflexivity.
    - destruct (is_none default) eqn:E; cbn; [| reflexivity].
      destruct (ConfigManager.file_given self'); reflexivity. }
  split; [apply H | split].
  - intros k v. rewrite !H. reflexivity.
  - intro file. rewrite !H. reflexivity.
Qed.

Lemma required_message_differs (key e : string) :
  ("Invalid type for configuration '" ++ key ++ "': " ++ e)%string
  <> ("Required configuration '" ++ key ++ "' not found")%string.
Proof. cbn. discriminate. Qed.

(** The value [get] works on: the file never adds anything. *)
Lemma found_value
  (self : ConfigManager.t) (env : ConfigManager.Env) (key : string)
  (default : pyval) (required : bool) (type_hint : option ConfigManager.hint) :
  ConfigManager.get self env key default required type_hint
  = let value := match ConfigManager.getenv env key with
                 | Some v => PStr v
                 | None => default
                 end in
    if required && is_none value then
      Throws (ValueErr ("Required configuration '" ++ key ++ "' not found")
                %string)
    else
      match type_hint with
      | Some h => if negb (is_none value)
                  then ConfigManager.convert key h value
                  else Returns value
      | None => Returns value
      end.
Proof.
  unfold ConfigManager.get, ConfigManager._get_from_file.
  destruct (ConfigManager.getenv env key) as [v |]; cbn [is_none andb].
  - reflexivity.
  - destruct (is_none default && ConfigManager.file_given self); reflexivity.
Qed.

Lemma convert_is_not_required_error
  (key : string) (h : ConfigManager.hint) (value : pyval) :
  ConfigManager.convert key h value
  <> Throws (ValueErr ("Required configuration '" ++ key ++ "' not found")
               %string).
Proof.
  unfold ConfigManager.convert. destruct h as [| f]; [discriminate |].
  destruct (f value) as [v' | [m | m | | n m]]; try discriminate;
    intros [= E]; exact (required_message_differs key m E).
Qed.

(** X23. [get] raises "Required configuration '<key>' not found" exactly when
    the value is required, the environment does not hold the key and the
    default is [None]; a default stands in for a required value. *)
Theorem required_error_iff
  (self : ConfigManager.t) (env : ConfigManager.Env) (key : string)
  (default : pyval) (required : bool) (type_hint : option ConfigManager.hint) :
  ConfigManager.get self env key default required type_hint
  = Throws (ValueErr ("Required configuration '" ++ key ++ "' not found")%string)
  <-> required = true
      /\ ConfigManager.getenv env key = None
      /\ default = PNone.
Proof.
  rewrite found_value. cbv zeta. split.
  - destruct (required && is_none _) eqn:R.
    + intros _. apply andb_true_iff in R as [-> R].
      destruct (ConfigManager.getenv env key); [discriminate |].
      destruct default; try discriminate. auto.
    + intro H. exfalso. destruct type_hint as [h |]; [| discriminate].
      destruct (negb (is_none _)); [| discriminate].
      exact (convert_is_not_required_error _ _ _ H).
  - intros (-> & -> & ->). reflexivity.
Qed.

Lemma required_error_iff_witness :
  ConfigManager.get (ConfigManager.init None) [] "API_KEY" PNone true None
  = Throws (ValueErr "Required configuration 'API_KEY' not found").
Proof.
  apply (proj2 (required_error_iff (ConfigManager.init None) [] "API_KEY"
                  PNone true None)).
  auto.
Defined.

Lemma dict_set_contains (k : string) (v : pyval) (d : Dict) :
  dict_contains k (dict_set k v d) = true.
Proof.
  unfold dict_contains. induction d as [| [k' v'] d IH]; cbn.
  - rewrite String.eqb_refl. reflexivity.
  - destruct (String.eqb k k') eqn:E; cbn.
    + rewrite String.eqb_refl. reflexivity.
    + rewrite E. exact IH.
Qed.

(** X24. A value stored with [set] is seen by [has] and not by [get]: for a key
    the environment does not hold, [has] answers true after [set], and
    [get] still returns [None], or raises when the value is required. *)
Theorem set_is_seen_by_has_not_by_get
  (self : ConfigManager.t) (env : ConfigManager.Env) (key : string)
  (value : pyval) (type_hint : option ConfigManager.hint) :
  ConfigManager.getenv env key = None ->
  ConfigManager.has (ConfigManager.set self key value) env key = true
  /\ ConfigManager.get (ConfigManager.set self key value) env key PNone false
       type_hint
     = Returns PNone
  /\ ConfigManager.get (ConfigManager.set self key value) env key PNone true
       type_hint
     = Throws (ValueErr ("Required configuration '" ++ key ++ "' not found")
                 %string).
Proof.
  intro Henv. split; [| split].
  - unfold ConfigManager.has, ConfigManager.set. cbn.
    rewrite dict_set_contains. apply orb_true_r.
  - unfold ConfigManager.get, ConfigManager._get_from_file. rewrite Henv. cbn.
    destruct (ConfigManager.file_given _); cbn; destruct type_hint; reflexivity.
  - apply required_error_iff. auto.
Qed.

Lemma set_is_seen_by_has_not_by_get_witness :
  ConfigManager.has (ConfigManager.set (ConfigManager.init None) "k" (PInt 1))
    [] "k" = true
  /\ ConfigManager.get (ConfigManager.set (ConfigManager.init None) "k" (PInt 1))
       [] "k" PNone false None
     = Returns PNone.
Proof.
  destruct (set_is_seen_by_has_not_by_get (ConfigManager.init None) [] "k"
              (PInt 1) None eq_refl) as (H1 & H2 & _).
  split; assumption.
Defined.

(** X25. [get] never raises a [TypeError]: when the conversion raises one, or a
    [ValueError], what comes out is a [ValueError] whose message starts with
    "Invalid type for configuration" and names the key; with the hint [bool]
    the conversion never fails. *)
Theorem conversion_errors_are_value_errors
  (self : ConfigManager.t) (env : ConfigManager.Env) (key : string)
  (default : pyval) (required : bool) (type_hint : option ConfigManager.hint) :
  (forall m,
      ConfigManager.get self env key default required type_hint
      <> Throws (TypeErr m))
  /\ (forall e,
         type_hint = Some ConfigManager.Bool ->
         ConfigManager.get self env key default required type_hint = Throws e ->
         e = ValueErr ("Required configuration '" ++ key ++ "' not found")
               %string)
  /\ (forall f v m,
         type_hint = Some (ConfigManager.Callable f) ->
         ConfigManager.getenv env key = Some v ->
         f (PStr v) = Throws (TypeErr m) ->
         ConfigManager.get self env key default required type_hint
         = Throws (ValueErr ("Invalid type for configuration '" ++ key
                             ++ "': " ++ m)%string)).
Proof.
  split; [| split].
  - intros m. rewrite found_value. cbv zeta.
    destruct (required && is_none _); [discriminate |].
    destruct type_hint as [[| f] |]; try discriminate;
      destruct (negb (is_none _)); cbn; try discriminate.
    match goal with
    | |- context [f ?x] =>
        destruct (f x) as [v' | [m' | m' | | n m']]; discriminate
    end.
  - intros e -> H. rewrite found_value in H. cbv zeta in H.
    destruct (required && is_none _); [injection H as <-; reflexivity |].
    destruct (negb (is_none _)); discriminate.
  - intros f v m -> Henv Hf.
    unfold ConfigManager.get. rewrite Henv. cbn. rewrite andb_false_r. cbn.
    rewrite Hf. reflexivity.
Qed.

Lemma conversion_errors_are_value_errors_witness :
  ConfigManager.get (ConfigManager.init None) [("PORT", "x")] "PORT" PNone
    false (Some (ConfigManager.Callable (fun _ => Throws (TypeErr "bad"))))
  = Throws (ValueErr "Invalid type for configuration 'PORT': bad").
Proof.
  apply (proj2 (proj2 (conversion_errors_are_value_errors
                         (ConfigManager.init None) [("PORT", "x")] "PORT" PNone
                         false
                         (Some (ConfigManager.Callable
                                  (fun _ => Throws (TypeErr "bad"))))))
           (fun _ => Throws (TypeErr "bad")) "x"%string "bad"%string);
    reflexivity.
Defined.

(** * The retry executor *)

(** The sleeps before attempt [k]: [1, 2, 4, ...] seconds. *)
Lemma zsum_app (xs ys : list Z) : zsum (xs ++ ys) = (zsum xs + zsum ys)%Z.
Proof.
  unfold zsum. induction xs as [| x xs IH]; cbn; [reflexivity |].
  rewrite IH. lia.
Qed.

Lemma zsum_backoff (k : nat) :
  zsum (map (fun i => (2 ^ Z.of_nat i)%Z) (seq 0 k)) = (2 ^ Z.of_nat k - 1)%Z.
Proof.
  induction k as [| k IH]; [reflexivity |].
  rewrite seq_S, map_app, zsum_app, IH. cbn [map zsum fold_right Nat.add].
  rewrite Nat2Z.inj_succ, Z.pow_succ_r by lia. lia.
Qed.

(** The loop up to the first attempt that completes. *)
Lemma loop_first_success
  (op : AsyncExecutor.Operation) (t m : Z) (v : pyval) (k : nat) :
  forall (a len : nat) (slept : list Z) (made : nat),
    (k < len)%nat ->
    (forall i, (i < k)%nat -> exists e, op (Z.of_nat (a + i)) t
                                        = AsyncExecutor.Fails e) ->
    (forall i, (i < k)%nat -> Z.of_nat (a + i) <> m) ->
    op (Z.of_nat (a + k)) t = AsyncExecutor.Completes v ->
    AsyncExecutor.retry_loop op t m (map Z.of_nat (seq a len)) slept made
    = AsyncExecutor.mkrun (AsyncExecutor.Returned v)
        (slept ++ map (fun i => (2 ^ Z.of_nat i)%Z) (seq a k))
        (made + k + 1).
Proof.
  induction k as [| k IH]; intros a len slept made Hlen Hfail Hne Hok;
    destruct len as [| len]; try lia; cbn [seq map AsyncExecutor.retry_loop].
  - rewrite Nat.add_0_r in Hok. rewrite Hok, app_nil_r.
    f_equal. lia.
  - destruct (Hfail O) as (e & He); [lia |]. rewrite Nat.add_0_r in He.
    rewrite He. specialize (Hne O ltac:(lia)) as Hne0.
    rewrite Nat.add_0_r in Hne0.
    destruct (Z.eqb_spec (Z.of_nat a) m) as [E | _]; [contradiction |].
    rewrite (IH (S a) len).
    + rewrite <- app_assoc, Z.mul_1_l. cbn [app]. f_equal. lia.
    + lia.
    + intros i Hi. specialize (Hfail (S i) ltac:(lia)).
      replace (S a + i)%nat with (a + S i)%nat by lia. exact Hfail.
    + intros i Hi. specialize (Hne (S i) ltac:(lia)).
      replace (S a + i)%nat with (a + S i)%nat by lia. exact Hne.
    + replace (S a + k)%nat with (a + S k)%nat by lia. exact Hok.
Qed.

Lemma retry_loop_cons
  (op : AsyncExecutor.Operation) (t m x : Z) (rest slept : list Z) (made : nat) :
  AsyncExecutor.retry_loop op t m (x :: rest) slept made
  = match op x t with
    | AsyncExecutor.Completes v =>
        AsyncExecutor.mkrun (AsyncExecutor.Returned v) slept (S made)
    | AsyncExecutor.Fails e =>
        if (x =? m)%Z
        then AsyncExecutor.mkrun (AsyncExecutor.Raised e) slept (S made)
        else AsyncExecutor.retry_loop op t m rest
               (slept ++ [(1 * 2 ^ x)%Z]) (S made)
    | AsyncExecutor.Aborts what =>
        AsyncExecutor.mkrun (AsyncExecutor.Aborted what) slept (S made)
    end.
Proof. reflexivity. Qed.

(** The loop when every attempt fails: the last index is [max_retries]. *)
Lemma loop_all_fail
  (op : AsyncExecutor.Operation) (t : Z) (e_last : exception) (len : nat) :
  forall (a : nat) (slept : list Z) (made : nat),
    (forall i, (i <= len)%nat -> exists e, op (Z.of_nat (a + i)) t
                                           = AsyncExecutor.Fails e) ->
    op (Z.of_nat (a + len)) t = AsyncExecutor.Fails e_last ->
    AsyncExecutor.retry_loop op t (Z.of_nat (a + len))
      (map Z.of_nat (seq a (S len))) slept made
    = AsyncExecutor.mkrun (AsyncExecutor.Raised e_last)
        (slept ++ map (fun i => (2 ^ Z.of_nat i)%Z) (seq a len))
        (made + len + 1).
Proof.
  induction len as [| len IH]; intros a slept made Hfail Hlast.
  - cbn [seq map AsyncExecutor.retry_loop]. rewrite Nat.add_0_r in *.
    rewrite Hlast, Z.eqb_refl, app_nil_r. f_equal. lia.
  - change (map Z.of_nat (seq a (S (S len))))
      with (Z.of_nat a :: map Z.of_nat (seq (S a) (S len))).
    rewrite retry_loop_cons.
    destruct (Hfail O) as (e & He); [lia |]. rewrite Nat.add_0_r in He.
    rewrite He.
    destruct (Z.eqb_spec (Z.of_nat a) (Z.of_nat (a + S len))) as [E | _]; [lia |].
    replace (a + S len)%nat with (S a + len)%nat in * by lia.
    rewrite (IH (S a)).
    + rewrite <- app_assoc, Z.mul_1_l. cbn [app]. f_equal. lia.
    + intros i Hi. specialize (Hfail (S i) ltac:(lia)).
      replace (S a + i)%nat with (a + S i)%nat by lia. exact Hfail.
    + exact Hlast.
Qed.

(** X26. When the attempts before the [k]-th fail and the [k]-th completes,
    within the allowed retries, its value is returned after [k + 1]
    attempts and sleeps of [1, 2, ..., 2^(k-1)] seconds, [2^k - 1] seconds
    in all. *)
Theorem retry_returns_first_success
  (self : AsyncExecutor.t) (op : AsyncExecutor.Operation)
  (max_retries timeout : option Z) (k : nat) (v : pyval) :
  let m := AsyncExecutor.or_default max_retries
             (AsyncExecutor.default_retries self) in
  let t := AsyncExecutor.or_default timeout
             (AsyncExecutor.default_timeout self) in
  (Z.of_nat k <= m)%Z ->
  (forall i, (i < k)%nat -> exists e, op (Z.of_nat i) t = AsyncExecutor.Fails e) ->
  op (Z.of_nat k) t = AsyncExecutor.Completes v ->
  AsyncExecutor.execute_with_retry self op max_retries timeout
  = AsyncExecutor.mkrun (AsyncExecutor.Returned v)
      (map (fun i => (2 ^ Z.of_nat i)%Z) (seq 0 k)) (k + 1)
  /\ zsum (AsyncExecutor.sleeps
             (AsyncExecutor.execute_with_retry self op max_retries timeout))
     = (2 ^ Z.of_nat k - 1)%Z.
Proof.
  intros m t Hk Hfail Hok.
  assert (E : AsyncExecutor.execute_with_retry self op max_retries timeout
              = AsyncExecutor.mkrun (AsyncExecutor.Returned v)
                  (map (fun i => (2 ^ Z.of_nat i)%Z) (seq 0 k)) (k + 1)).
  { unfold AsyncExecutor.execute_with_retry, AsyncExecutor.range.
    fold m t. rewrite (loop_first_success op t m v k 0).
    - reflexivity.
    - lia.
    - exact Hfail.
    - intros i Hi. cbn [Nat.add]. lia.
    - exact Hok. }
  split; [exact E |]. rewrite E. cbn [AsyncExecutor.sleeps].
  apply zsum_backoff.
Qed.

Lemma retry_returns_first_success_witness :
  AsyncExecutor.execute_with_retry (AsyncExecutor.init 30 3)
    (fun attempt _ => if (attempt <? 2)%Z
                      then AsyncExecutor.Fails TimeoutErr
                      else AsyncExecutor.Completes (PInt 7))
    None None
  = AsyncExecutor.mkrun (AsyncExecutor.Returned (PInt 7)) [1%Z; 2%Z] 3.
Proof.
  refine (proj1 (retry_returns_first_success (AsyncExecutor.init 30 3) _ None
                   None 2 (PInt 7) _ _ _)).
  - cbn. lia.
  - intros i Hi. exists TimeoutErr.
    destruct (Z.ltb_spec (Z.of_nat i) 2); [reflexivity | lia].
  - reflexivity.
Defined.

(** X27. When every allowed attempt fails, the exception of the last one is
    raised after [max_retries + 1] attempts; the executor sleeps
    [2^max_retries - 1] seconds in all, and not after the last failure. *)
Theorem retry_raises_last_failure
  (self : AsyncExecutor.t) (op : AsyncExecutor.Operation)
  (max_retries timeout : option Z) (e_last : exception) :
  let m := AsyncExecutor.or_default max_retries
             (AsyncExecutor.default_retries self) in
  let t := AsyncExecutor.or_default timeout
             (AsyncExecutor.default_timeout self) in
  (0 <= m)%Z ->
  (forall i, (0 <= i <= m)%Z -> exists e, op i t = AsyncExecutor.Fails e) ->
  op m t = AsyncExecutor.Fails e_last ->
  AsyncExecutor.execute_with_retry self op max_retries timeout
  = AsyncExecutor.mkrun (AsyncExecutor.Raised e_last)
      (map (fun i => (2 ^ Z.of_nat i)%Z) (seq 0 (Z.to_nat m)))
      (Z.to_nat m + 1)
  /\ zsum (AsyncExecutor.sleeps
             (AsyncExecutor.execute_with_retry self op max_retries timeout))
     = (2 ^ m - 1)%Z.
Proof.
  intros m t Hm Hfail Hlast.
  assert (E : AsyncExecutor.execute_with_retry self op max_retries timeout
              = AsyncExecutor.mkrun (AsyncExecutor.Raised e_last)
                  (map (fun i => (2 ^ Z.of_nat i)%Z) (seq 0 (Z.to_nat m)))
                  (Z.to_nat m + 1)).
  { unfold AsyncExecutor.execute_with_retry, AsyncExecutor.range.
    fold m t.
    replace (Z.to_nat (m + 1)) with (S (Z.to_nat m)) by lia.
    replace m with (Z.of_nat (0 + Z.to_nat m)) at 1 by lia.
    rewrite (loop_all_fail op t e_last (Z.to_nat m) 0).
    - reflexivity.
    - intros i Hi. apply Hfail. lia.
    - replace (Z.of_nat (0 + Z.to_nat m)) with m by lia. exact Hlast. }
  split; [exact E |]. rewrite E. cbn [AsyncExecutor.sleeps].
  rewrite zsum_backoff. rewrite Z2Nat.id by exact Hm. reflexivity.
Qed.

Lemma retry_raises_last_failure_witness :
  AsyncExecutor.execute_with_retry (AsyncExecutor.init 30 3)
    (fun attempt _ => if (attempt <? 2)%Z
                      then AsyncExecutor.Fails TimeoutErr
                      else AsyncExecutor.Fails (ValueErr "boom"))
    (Some 2%Z) None
  = AsyncExecutor.mkrun (AsyncExecutor.Raised (ValueErr "boom")) [1%Z; 2%Z] 3.
Proof.
  refine (proj1 (retry_raises_last_failure (AsyncExecutor.init 30 3) _
                   (Some 2%Z) None (ValueErr "boom") _ _ _)).
  - cbn. lia.
  - intros i Hi. destruct (Z.ltb_spec i 2); eexists; reflexivity.
  - reflexivity.
Defined.

(** X28. The edges of [max_retries]: a [0] is taken for no argument, so the
    default number of retries applies; and when the number in force is
    negative the operation is never attempted and [None] is returned. *)
Theorem max_retries_edge_cases
  (self : AsyncExecutor.t) (op : AsyncExecutor.Operation)
  (max_retries timeout : option Z) :
  AsyncExecutor.execute_with_retry self op (Some 0%Z) timeout
  = AsyncExecutor.execute_with_retry self op None timeout
  /\ ((AsyncExecutor.or_default max_retries
         (AsyncExecutor.default_retries self) < 0)%Z ->
      AsyncExecutor.execute_with_retry self op max_retries timeout
      = AsyncExecutor.mkrun (AsyncExecutor.Returned PNone) [] 0).
Proof.
  split; [reflexivity |].
  intro H. unfold AsyncExecutor.execute_with_retry, AsyncExecutor.range.
  replace (Z.to_nat (_ + 1)) with O by lia. reflexivity.
Qed.

Lemma max_retries_edge_cases_witness :
  AsyncExecutor.execute_with_retry (AsyncExecutor.init 30 3)
    (fun _ _ => AsyncExecutor.Completes (PInt 1)) (Some (-1)%Z) None
  = AsyncExecutor.mkrun (AsyncExecutor.Returned PNone) [] 0.
Proof.
  refine (proj2 (max_retries_edge_cases (AsyncExecutor.init 30 3) _
                   (Some (-1)%Z) None) _).
  reflexivity.
Defined.


